(** * DNS failover engine (dns_failover.py): model and verified properties

    A shallow embedding of the three classes of [dns_failover.py]:
    [CloudflareAPI], [ServerMonitor] and [DNSFailover].

    - The configuration dictionary is a record; [config["servers"]] is an
      association list in insertion order (Python dictionaries iterate in
      insertion order, and both the priority fallback and the candidate
      scan depend on it).
    - [self.failure_counts] is a finite map from server names to integers.
    - The network is an explicit [World]: a logical clock counting the
      requests made so far, the records of the DNS zone, and the trace of
      requests issued.  What the network answers at each instant is given
      by an [Env] of oracles indexed by that clock, so reachability and
      store faults may change from one request to the next.
    - Methods of [DNSFailover] are computations in a state-and-exception
      monad over the engine and the world. *)

From Stdlib Require Import ZArith Ascii String Permutation Sorted Lia.
From stdpp Require Import gmap strings list fin_maps.

Open Scope string_scope.
Open Scope Z_scope.
Open Scope list_scope.

(** ** Configuration *)

(** One entry of [config["servers"]]. *)
Record ServerConfig := {
  ip : string;
  port : Z;
  priority : Z
}.

(** The configuration dictionary, flattened: the [cloudflare], [dns] and
    [monitoring] sections and the [servers] dictionary.  The two optional
    monitoring keys are read with [dict.get] and a default. *)
Record Config := {
  api_token : string;
  zone_id : string;
  domain_name : string;
  record_type : string;
  ttl : Z;
  timeout : Z;
  check_method : option string;
  http_check_path : option string;
  failure_threshold : Z;
  servers : list (string * ServerConfig)
}.

(** ** The outside world *)

(** A DNS record as the store returns it. *)
Record DNSRecord := {
  rec_id : string;
  rec_name : string;
  rec_type : string;
  rec_content : string;
  rec_ttl : Z
}.

(** How the DNS provider answers one request: the request raises (transport
    or HTTP error), it is answered with ["success": false], or it is
    served. *)
Inductive Reply := Down | Rejected | Served.

(** Oracles for everything the engine reads from outside, indexed by the
    logical clock of the request. *)
Record Env := {
  (** [sock.connect_ex((ip, port))]; [None] when the socket call raises *)
  connect_ex : nat -> string -> Z -> option Z;
  (** status code of [requests.get(protocol://ip:port path)]; [None] when it raises *)
  http_get : nat -> string -> string -> Z -> string -> option Z;
  (** behaviour of the DNS provider for a request made at that instant *)
  dns_reply : nat -> Reply;
  (** [datetime.now().isoformat()] *)
  now : nat -> string
}.

(** Requests issued to the outside, with their outcome. *)
Inductive Event :=
| EvConnect (addr : string) (p : Z) (r : option Z)
| EvHttpGet (protocol addr : string) (p : Z) (path : string) (r : option Z)
| EvDnsGet (name ty : string) (r : option DNSRecord)
| EvDnsPut (req : DNSRecord) (ok : bool).

Record World := {
  clock : nat;
  zone : list DNSRecord;
  trace : list Event
}.

Definition tick (e : Event) (w : World) : World :=
  {| clock := S (clock w); zone := zone w; trace := trace w ++ [e] |}.

Definition is_put (e : Event) : bool :=
  match e with EvDnsPut _ _ => true | _ => false end.

Definition is_dns (e : Event) : bool :=
  match e with EvDnsPut _ _ | EvDnsGet _ _ _ => true | _ => false end.

(** ** Python helpers *)

(** Truth value of an [Optional[str]]: [None] and the empty string are false. *)
Definition truthy (o : option string) : bool :=
  match o with
  | Some s => negb (String.eqb s "")
  | None => false
  end.

(** [str.lower] on the ASCII letters (no other character lowers to a
    letter of ["http"], the only string the result is compared with). *)
Definition lower_ascii (c : ascii) : ascii :=
  let n := nat_of_ascii c in
  if ((65 <=? n)%nat && (n <=? 90)%nat)%bool then ascii_of_nat (n + 32) else c.

Fixpoint lower (s : string) : string :=
  match s with
  | EmptyString => EmptyString
  | String c s' => String (lower_ascii c) (lower s')
  end.

(** [d[key]] on [config["servers"]]. *)
Fixpoint lookup_server (name : string) (l : list (string * ServerConfig))
  : option ServerConfig :=
  match l with
  | [] => None
  | (n, sc) :: l' => if String.eqb n name then Some sc else lookup_server name l'
  end.

(** [min(items, key=priority)]: the running best is replaced only by a
    strictly smaller key, so the first minimal item wins. *)
Fixpoint min_by_priority (best : string * ServerConfig)
  (l : list (string * ServerConfig)) : string * ServerConfig :=
  match l with
  | [] => best
  | x :: l' =>
      min_by_priority (if priority (snd x) <? priority (snd best) then x else best) l'
  end.

(** [sorted(items, key=priority)]: a stable sort, here by insertion. *)
Fixpoint insert_by_priority (x : string * ServerConfig)
  (l : list (string * ServerConfig)) : list (string * ServerConfig) :=
  match l with
  | [] => [x]
  | y :: l' =>
      if priority (snd x) <=? priority (snd y) then x :: y :: l'
      else y :: insert_by_priority x l'
  end.

Fixpoint sorted_by_priority (l : list (string * ServerConfig))
  : list (string * ServerConfig) :=
  match l with
  | [] => []
  | x :: l' => insert_by_priority x (sorted_by_priority l')
  end.

(** ** Engine state and its monad *)

Record Engine := {
  current_active_server : option string;
  failure_counts : gmap string Z
}.

Inductive Exn := KeyError (key : string) | ValueError.

Inductive Res (A : Type) :=
| Ok (a : A)
| Raise (e : Exn).
Arguments Ok {A} a.
Arguments Raise {A} e.

(** A method of the engine: it may change the engine and the world, and
    either returns or raises.  Changes made before a raise remain. *)
Definition M (A : Type) : Type := Engine -> World -> Res A * Engine * World.

Definition ret {A} (a : A) : M A := fun s w => (Ok a, s, w).

Definition raise {A} (e : Exn) : M A := fun s w => (Raise e, s, w).

Definition bind {A B} (m : M A) (k : A -> M B) : M B :=
  fun s w =>
    match m s w with
    | (Ok a, s', w') => k a s' w'
    | (Raise e, s', w') => (Raise e, s', w')
    end.

(** [try: m except Exception: h] *)
Definition catch {A} (m : M A) (h : Exn -> M A) : M A :=
  fun s w =>
    match m s w with
    | (Ok a, s', w') => (Ok a, s', w')
    | (Raise e, s', w') => h e s' w'
    end.

Definition get_self : M Engine := fun s w => (Ok s, s, w).

Definition set_active (n : string) : M unit :=
  fun s w => (Ok tt, {| current_active_server := Some n;
                        failure_counts := failure_counts s |}, w).

Definition set_count (n : string) (c : Z) : M unit :=
  fun s w => (Ok tt, {| current_active_server := current_active_server s;
                        failure_counts := <[n := c]> (failure_counts s) |}, w).

(** [self.failure_counts[n]] *)
Definition get_count (n : string) : M Z :=
  fun s w =>
    match failure_counts s !! n with
    | Some c => (Ok c, s, w)
    | None => (Raise (KeyError n), s, w)
    end.

(** A call that only touches the world. *)
Definition io {A} (f : World -> A * World) : M A :=
  fun s w => let '(a, w') := f w in (Ok a, s, w').

Notation "'call' x '<~' m ';;' k" := (bind m (fun x => k))
  (at level 10, x binder, m at level 99, k at level 200).
Notation "'exec' m ';;' k" := (bind m (fun _ => k))
  (at level 10, m at level 99, k at level 200).

(** ** The three classes *)

Section Program.

Variable cfg : Config.
Variable env : Env.

(** *** CloudflareAPI *)

(** The store's side of a served GET on [dns_records] (the provider's
    [getRecord] made concrete): the records of the zone that have the
    [name] and [type] given as [params], in the zone's order. *)
Definition matching_records (name ty : string) (z : list DNSRecord) : list DNSRecord :=
  filter (fun r => rec_name r = name /\ rec_type r = ty) z.

(** [CloudflareAPI.get_dns_record]: the first listed record when the
    request is served with a non-empty result, [None] in every other case
    (no record, ["success": false], or an exception, which is caught). *)
Definition get_dns_record (name ty : string) (w : World) : option DNSRecord * World :=
  let r :=
    match dns_reply env (clock w) with
    | Served => head (matching_records name ty (zone w))
    | Rejected => None
    | Down => None
    end in
  (r, tick (EvDnsGet name ty r) w).

(** The store's side of a served PUT on [dns_records/{id}] (the provider is
    not code of this repository; this is its interface, [updateRecord],
    made concrete): the record with that identifier takes the type, name,
    content and ttl of the request. *)
Definition overwrite (req : DNSRecord) (z : list DNSRecord) : list DNSRecord :=
  map (fun r => if String.eqb (rec_id r) (rec_id req) then req else r) z.

Definition has_record (id : string) (z : list DNSRecord) : bool :=
  existsb (fun r => String.eqb (rec_id r) id) z.

(** [CloudflareAPI.update_dns_record]: [True] only when the request is
    served for an existing record; an unknown identifier is an HTTP error,
    which [raise_for_status] raises and the method catches. *)
Definition update_dns_record (record_id name ip_address ty : string) (ttl' : Z)
  (w : World) : bool * World :=
  let req := {| rec_id := record_id; rec_name := name; rec_type := ty;
                rec_content := ip_address; rec_ttl := ttl' |} in
  let ok :=
    match dns_reply env (clock w) with
    | Served => has_record record_id (zone w)
    | Rejected => false
    | Down => false
    end in
  (ok, {| clock := S (clock w);
          zone := if ok then overwrite req (zone w) else zone w;
          trace := trace w ++ [EvDnsPut req ok] |}).

(** *** ServerMonitor *)

Definition check_tcp_connection (addr : string) (p : Z) (w : World) : bool * World :=
  let r := connect_ex env (clock w) addr p in
  (match r with Some result => result =? 0 | None => false end,
   tick (EvConnect addr p r) w).

Definition check_http_connection (addr : string) (p : Z) (path : string) (w : World)
  : bool * World :=
  let protocol := if p =? 443 then "https" else "http" in
  let r := http_get env (clock w) protocol addr p path in
  (match r with Some status_code => status_code <? 500 | None => false end,
   tick (EvHttpGet protocol addr p path r) w).

Definition check_server (addr : string) (p : Z) (method path : string) (w : World)
  : bool * World :=
  if String.eqb (lower method) "http" then check_http_connection addr p path w
  else check_tcp_connection addr p w.

(** *** DNSFailover *)

(** [self.config["servers"][name]] *)
Definition server_config (name : string) : M ServerConfig :=
  match lookup_server name (servers cfg) with
  | Some sc => ret sc
  | None => raise (KeyError name)
  end.

Definition _get_highest_priority_server : M string :=
  match servers cfg with
  | [] => raise ValueError
  | x :: l => ret (fst (min_by_priority x l))
  end.

(** The loop of [_determine_current_active_server]: the first server whose
    address is the record's content. *)
Fixpoint find_by_ip (current_ip : string) (l : list (string * ServerConfig))
  : option string :=
  match l with
  | [] => None
  | (server_name, sc) :: l' =>
      if String.eqb (ip sc) current_ip then Some server_name
      else find_by_ip current_ip l'
  end.

(** The fallback after the [try] block. *)
Definition default_to_highest_priority : M unit :=
  call s <~ get_self ;;
  if negb (truthy (current_active_server s)) then
    call n <~ _get_highest_priority_server ;;
    set_active n
  else ret tt.

Definition _determine_current_active_server : M unit :=
  call dns_record <~ io (get_dns_record (domain_name cfg) (record_type cfg)) ;;
  match dns_record with
  | Some r =>
      match find_by_ip (rec_content r) (servers cfg) with
      | Some server_name => set_active server_name
      | None => default_to_highest_priority
      end
  | None => default_to_highest_priority
  end.

Definition _check_server_health (server_name : string) : M bool :=
  call sc <~ server_config server_name ;;
  call is_healthy <~ io (check_server (ip sc) (port sc)
                           (default "tcp" (check_method cfg))
                           (default "/" (http_check_path cfg))) ;;
  if is_healthy then
    exec set_count server_name 0 ;;
    ret true
  else
    call c <~ get_count server_name ;;
    exec set_count server_name (c + 1) ;;
    ret false.

(** The loop of [_get_next_available_server] over the sorted items. *)
Fixpoint scan_candidates (l : list (string * ServerConfig)) : M (option string) :=
  match l with
  | [] => ret None
  | (server_name, _) :: l' =>
      call s <~ get_self ;;
      if bool_decide (Some server_name = current_active_server s) then
        scan_candidates l'
      else
        call h <~ _check_server_health server_name ;;
        if h then ret (Some server_name) else scan_candidates l'
  end.

Definition _get_next_available_server : M (option string) :=
  scan_candidates (sorted_by_priority (servers cfg)).

Definition _switch_to_server (new_server : string) : M bool :=
  catch
    (call sc <~ server_config new_server ;;
     call dns_record <~ io (get_dns_record (domain_name cfg) (record_type cfg)) ;;
     match dns_record with
     | None => ret false
     | Some r =>
         call success <~ io (update_dns_record (rec_id r) (domain_name cfg) (ip sc)
                               (record_type cfg) (ttl cfg)) ;;
         if success then
           exec set_active new_server ;;
           exec set_count new_server 0 ;;
           ret true
         else ret false
     end)
    (fun _ => ret false).

Definition check_and_failover_body : M unit :=
  call s <~ get_self ;;
  match current_active_server s with
  | None => ret tt
  | Some active =>
      if negb (truthy (Some active)) then ret tt
      else
        call is_current_healthy <~ _check_server_health active ;;
        if is_current_healthy then ret tt
        else
          call c <~ get_count active ;;
          if failure_threshold cfg <=? c then
            call next_server <~ _get_next_available_server ;;
            match next_server with
            | Some candidate =>
                if truthy (Some candidate) then
                  exec _switch_to_server candidate ;;
                  ret tt
                else ret tt
            | None => ret tt
            end
          else ret tt
  end.

(** [check_and_failover]: the body runs inside [try ... except Exception],
    so the method always returns. *)
Definition check_and_failover (s : Engine) (w : World) : Engine * World :=
  let '(_, s', w') := check_and_failover_body s w in (s', w').

(** One entry of [status["servers"]]. *)
Record ServerStatus := {
  st_ip : string;
  st_port : Z;
  st_priority : Z;
  st_healthy : bool;
  st_failure_count : Z
}.

Record Status := {
  st_current_active_server : option string;
  st_timestamp : string;
  st_servers : list (string * ServerStatus)
}.

(** The loop of [get_status] over [config["servers"].items()]. *)
Fixpoint status_entries (l : list (string * ServerConfig))
  : M (list (string * ServerStatus)) :=
  match l with
  | [] => ret []
  | (server_name, sc) :: l' =>
      call is_healthy <~ _check_server_health server_name ;;
      call c <~ get_count server_name ;;
      call rest <~ status_entries l' ;;
      ret ((server_name,
            {| st_ip := ip sc; st_port := port sc; st_priority := priority sc;
               st_healthy := is_healthy; st_failure_count := c |}) :: rest)
  end.

Definition get_status : M Status :=
  call s <~ get_self ;;
  call stamp <~ io (fun w => (now env (clock w), w)) ;;
  call entries <~ status_entries (servers cfg) ;;
  ret {| st_current_active_server := current_active_server s;
         st_timestamp := stamp;
         st_servers := entries |}.

(** [DNSFailover.__init__]: every configured server starts with count 0,
    no active server, then the resolver runs.  When the resolver raises
    (no server configured) the constructor raises and no engine exists. *)
Definition initial_counts : gmap string Z :=
  foldl (fun m x => <[fst x := 0]> m) ∅ (servers cfg).

Definition DNSFailover (w : World) : Res unit * Engine * World :=
  _determine_current_active_server
    {| current_active_server := None; failure_counts := initial_counts |} w.

(** The scheduler of main.py runs one cycle after the other. *)
Fixpoint run_cycles (n : nat) (s : Engine) (w : World) : Engine * World :=
  match n with
  | O => (s, w)
  | S n' => let '(s', w') := check_and_failover s w in run_cycles n' s' w'
  end.

End Program.

(** ** Vocabulary of the statements *)

(** The configured server names (the keys of [config["servers"]]). *)
Definition names (cfg : Config) : list string := map fst (servers cfg).

(** What a Python dictionary guarantees by construction: keys are unique. *)
Definition unique_names (cfg : Config) : Prop := NoDup (names cfg).

(** Every configured server has a failure counter, as [__init__] arranges. *)
Definition counts_cover (cfg : Config) (s : Engine) : Prop :=
  forall n, n ∈ names cfg -> is_Some (failure_counts s !! n).

(** Verdict of the health probe of a server when issued at instant [t]:
    [check_server] itself, run at that clock. *)
Definition healthy_at (cfg : Config) (env : Env) (t : nat) (sc : ServerConfig) : bool :=
  fst (check_server env (ip sc) (port sc)
         (default "tcp" (check_method cfg)) (default "/" (http_check_path cfg))
         {| clock := t; zone := []; trace := [] |}).

(** [w'] is [w] after [k] requests none of which went to the DNS store. *)
Definition probes_only (k : nat) (w w' : World) : Prop :=
  clock w' = (clock w + k)%nat /\ zone w' = zone w /\
  exists evs, length evs = k /\ Forall (fun e => is_dns e = false) evs /\
              trace w' = trace w ++ evs.

(** The requests issued between two worlds of one run (the trace only
    grows), and how many of them are writes to the DNS store. *)
Definition new_events (w w' : World) : list Event :=
  drop (length (trace w)) (trace w').

Definition puts_issued (w w' : World) : nat :=
  length (List.filter is_put (new_events w w')).

(** The record the store currently lists first for the configured domain
    and type. *)
Definition current_record (cfg : Config) (w : World) : option DNSRecord :=
  head (matching_records (domain_name cfg) (record_type cfg) (zone w)).

(** The update request a switch to a server sends for a fetched record. *)
Definition switch_request (cfg : Config) (r : DNSRecord) (sc : ServerConfig) : DNSRecord :=
  {| rec_id := rec_id r; rec_name := domain_name cfg; rec_type := record_type cfg;
     rec_content := ip sc; rec_ttl := ttl cfg |}.

(** Engine after a confirmed switch. *)
Definition switched (s : Engine) (n : string) : Engine :=
  {| current_active_server := Some n;
     failure_counts := <[n := 0]> (failure_counts s) |}.

(** Engine with one counter overwritten. *)
Definition with_count (s : Engine) (n : string) (c : Z) : Engine :=
  {| current_active_server := current_active_server s;
     failure_counts := <[n := c]> (failure_counts s) |}.

(** The candidates of a selection: the sorted items without the active one. *)
Definition candidates (cfg : Config) (s : Engine) : list (string * ServerConfig) :=
  filter (fun x => Some (fst x) <> current_active_server s)
         (sorted_by_priority (servers cfg)).

(** The first candidate that probes healthy when candidates are probed one
    after the other from instant [t] on. *)
Fixpoint first_healthy (cfg : Config) (env : Env) (t : nat)
  (l : list (string * ServerConfig)) : option (string * ServerConfig) :=
  match l with
  | [] => None
  | (n, sc) :: l' =>
      if healthy_at cfg env t sc then Some (n, sc) else first_healthy cfg env (S t) l'
  end.

(** Number of probes such a scan issues. *)
Fixpoint probes_made (cfg : Config) (env : Env) (t : nat)
  (l : list (string * ServerConfig)) : nat :=
  match l with
  | [] => O
  | (n, sc) :: l' =>
      if healthy_at cfg env t sc then 1%nat else S (probes_made cfg env (S t) l')
  end.

(** The counters after such a scan: each probed candidate has its verdict
    recorded. *)
Fixpoint record_probes (cfg : Config) (env : Env) (t : nat)
  (l : list (string * ServerConfig)) (fc : gmap string Z) : gmap string Z :=
  match l with
  | [] => fc
  | (n, sc) :: l' =>
      if healthy_at cfg env t sc then <[n := 0]> fc
      else record_probes cfg env (S t) l' (<[n := default 0 (fc !! n) + 1]> fc)
  end.

(** The active server has reached the threshold in the cycle that starts
    in [s] and [w]: it is determined, probes unhealthy, and its count after
    recording that probe is at least the threshold. *)
Definition tripped (cfg : Config) (env : Env) (s : Engine) (w : World) : bool :=
  match current_active_server s with
  | Some a =>
      truthy (Some a) &&
      match lookup_server a (servers cfg), failure_counts s !! a with
      | Some sa, Some c =>
          negb (healthy_at cfg env (clock w) sa) && (failure_threshold cfg <=? c + 1)
      | _, _ => false
      end
  | None => false
  end.

(** States an engine can be in: built by the constructor, then driven by
    cycles and status requests, while the world moves on its own between
    calls. *)
Inductive reachable (cfg : Config) (env : Env) : Engine -> World -> Prop :=
| reach_init w s w' :
    DNSFailover cfg env w = (Ok tt, s, w') -> reachable cfg env s w'
| reach_cycle s w s' w' :
    reachable cfg env s w -> check_and_failover cfg env s w = (s', w') ->
    reachable cfg env s' w'
| reach_status s w r s' w' :
    reachable cfg env s w -> get_status cfg env s w = (r, s', w') ->
    reachable cfg env s' w'
| reach_world s w w' :
    reachable cfg env s w -> reachable cfg env s w'.

(** Order of the items by priority. *)
Definition by_priority (x y : string * ServerConfig) : Prop :=
  priority (snd x) <= priority (snd y).

(** [n] is the first item, in iteration order, of minimal priority. *)
Definition first_minimum (l : list (string * ServerConfig)) (n : string) : Prop :=
  exists sc l1 l2,
    l = l1 ++ (n, sc) :: l2 /\
    (forall y, y ∈ l1 -> priority sc < priority (snd y)) /\
    (forall y, y ∈ l2 -> priority sc <= priority (snd y)).

(** [n] is the first item, in iteration order, whose address is [addr]. *)
Definition first_with_ip (l : list (string * ServerConfig)) (addr n : string) : Prop :=
  exists sc l1 l2,
    l = l1 ++ (n, sc) :: l2 /\ ip sc = addr /\
    (forall y, y ∈ l1 -> ip (snd y) <> addr).

(** The counters are well formed: there is one for each configured server
    and for nothing else, and none is negative. *)
Definition counts_wf (cfg : Config) (s : Engine) : Prop :=
  (forall n, is_Some (failure_counts s !! n) <-> n ∈ names cfg) /\
  (forall n c, failure_counts s !! n = Some c -> 0 <= c).

(** [w'] is [w] after some requests none of which is a write to the DNS
    store; the zone is as it was. *)
Definition no_writes (w w' : World) : Prop :=
  zone w' = zone w /\
  exists evs, trace w' = trace w ++ evs /\ Forall (fun e => is_put e = false) evs.


(** ** Callers of the engine: main.py and test.py *)

Section Callers.

Variable cfg : Config.
Variable env : Env.

(** [DNSFailoverService.initialize_failover]: the constructor inside
    [try ... except]; [None] stands for the [False] it returns when the
    constructor raises. *)
Definition initialize_failover (w : World) : option Engine * World :=
  match DNSFailover cfg env w with
  | (Ok _, s, w') => (Some s, w')
  | (Raise _, _, w') => (None, w')
  end.

(** [DNSFailoverService.run_check] *)
Definition run_check (s : Engine) (w : World) : Engine * World :=
  check_and_failover cfg env s w.

(** [DNSFailoverService.print_status]: the status is computed and printed;
    an exception is logged instead.  The result carries what was printed. *)
Definition print_status (s : Engine) (w : World) : option Status * Engine * World :=
  match get_status cfg env s w with
  | (Ok status, s', w') => (Some status, s', w')
  | (Raise _, s', w') => (None, s', w')
  end.

(** [main] with [--test] or [--status], once the configuration is loaded:
    build the engine (exit when that fails, here [None]), run one check
    when [--test] is given, then print the status. *)
Definition test_or_status_mode (test : bool) (w : World)
  : option (option Status * Engine * World) :=
  match initialize_failover w with
  | (None, _) => None
  | (Some s, w1) =>
      let '(s2, w2) := if test then run_check s w1 else (s, w1) in
      Some (print_status s2 w2)
  end.

(** The loop of [test_dns_update] (test.py): the address of the first
    server whose address differs from the record's. *)
Fixpoint find_other_ip (current_ip : string) (l : list (string * ServerConfig))
  : option string :=
  match l with
  | [] => None
  | (_, sc) :: l' =>
      if negb (String.eqb (ip sc) current_ip) then Some (ip sc)
      else find_other_ip current_ip l'
  end.

(** [test_dns_update] (test.py): read the record, pick a test address, and
    unless [dry_run], point the record at it and then back. *)
Definition test_dns_update (dry_run : bool) (w : World) : bool * World :=
  let '(record, w1) := get_dns_record env (domain_name cfg) (record_type cfg) w in
  match record with
  | None => (false, w1)
  | Some r =>
      let current_ip := rec_content r in
      match find_other_ip current_ip (servers cfg) with
      | None => (true, w1)
      | Some test_ip =>
          if negb (truthy (Some test_ip)) then (true, w1)
          else if dry_run then (true, w1)
          else
            let '(success, w2) :=
              update_dns_record env (rec_id r) (domain_name cfg) test_ip
                (record_type cfg) (ttl cfg) w1 in
            if success then
              let '(restore_success, w3) :=
                update_dns_record env (rec_id r) (domain_name cfg) current_ip
                  (record_type cfg) (ttl cfg) w2 in
              (success && restore_success, w3)
            else (false, w2)
      end
  end.

(** The record [test_dns_update] writes when it restores the original
    address: the record read, with the configured name, type and ttl. *)
Definition restored (r : DNSRecord) : DNSRecord :=
  {| rec_id := rec_id r; rec_name := domain_name cfg; rec_type := record_type cfg;
     rec_content := rec_content r; rec_ttl := ttl cfg |}.

End Callers.

(** ** A concrete deployment

    Three servers with priorities 1, 2, 3 and threshold 3, as in the
    end-to-end example; the zone holds one A record for the domain, whose
    ttl (120) differs from the configured one (300). *)

Module Example.

Definition srvA : ServerConfig := {| ip := "10.0.0.1"; port := 80; priority := 1 |}.
Definition srvB : ServerConfig := {| ip := "10.0.0.2"; port := 80; priority := 2 |}.
Definition srvC : ServerConfig := {| ip := "10.0.0.3"; port := 80; priority := 3 |}.

Definition cfg : Config :=
  {| api_token := "token"; zone_id := "zone"; domain_name := "example.com";
     record_type := "A"; ttl := 300;
     timeout := 10; check_method := None; http_check_path := None;
     failure_threshold := 3;
     servers := [("A", srvA); ("B", srvB); ("C", srvC)] |}.

(** The same deployment failing over at the first failed probe. *)
Definition cfg1 : Config :=
  {| api_token := "token"; zone_id := "zone"; domain_name := "example.com";
     record_type := "A"; ttl := 300;
     timeout := 10; check_method := None; http_check_path := None;
     failure_threshold := 1;
     servers := [("A", srvA); ("B", srvB); ("C", srvC)] |}.

Definition record0 : DNSRecord :=
  {| rec_id := "r1"; rec_name := "example.com"; rec_type := "A";
     rec_content := "10.0.0.1"; rec_ttl := 120 |}.

Definition w0 : World := {| clock := 0; zone := [record0]; trace := [] |}.

Definition stamp : string := "2024-01-01T00:00:00".

(** Server A refuses connections, the others accept; the store serves. *)
Definition env_A_down : Env :=
  {| connect_ex := fun _ addr _ => if String.eqb addr "10.0.0.1" then Some 111 else Some 0;
     http_get := fun _ _ _ _ _ => None;
     dns_reply := fun _ => Served;
     now := fun _ => stamp |}.

(** Every server accepts connections; the store serves. *)
Definition env_all_up : Env :=
  {| connect_ex := fun _ _ _ => Some 0;
     http_get := fun _ _ _ _ _ => None;
     dns_reply := fun _ => Served;
     now := fun _ => stamp |}.

(** No server accepts connections; the store serves. *)
Definition env_all_down : Env :=
  {| connect_ex := fun _ _ _ => Some 111;
     http_get := fun _ _ _ _ _ => None;
     dns_reply := fun _ => Served;
     now := fun _ => stamp |}.

(** Server A refuses connections and the store is unreachable. *)
Definition env_store_down : Env :=
  {| connect_ex := fun _ addr _ => if String.eqb addr "10.0.0.1" then Some 111 else Some 0;
     http_get := fun _ _ _ _ _ => None;
     dns_reply := fun _ => Down;
     now := fun _ => stamp |}.

(** Server A refuses connections; the store answers reads and rejects
    writes (the first three requests of a tripped cycle that finds B are
    two probes and the read). *)
Definition env_write_rejected : Env :=
  {| connect_ex := fun _ addr _ => if String.eqb addr "10.0.0.1" then Some 111 else Some 0;
     http_get := fun _ _ _ _ _ => None;
     dns_reply := fun t => if (t <=? 2)%nat then Served else Rejected;
     now := fun _ => stamp |}.

(** A deployment in which two servers share the smallest priority, and the
    record points at none of them. *)
Definition cfg_tie : Config :=
  {| api_token := "token"; zone_id := "zone"; domain_name := "example.com";
     record_type := "A"; ttl := 300;
     timeout := 10; check_method := None; http_check_path := None;
     failure_threshold := 3;
     servers := [("C", srvC);
                 ("B", {| ip := "10.0.0.2"; port := 80; priority := 1 |});
                 ("A", srvA)] |}.

Definition w_foreign : World :=
  {| clock := 0;
     zone := [{| rec_id := "r1"; rec_name := "example.com"; rec_type := "A";
                 rec_content := "192.0.2.7"; rec_ttl := 120 |}];
     trace := [] |}.

(** The world two requests later (a cycle has probed A and B). *)
Definition w2 : World := {| clock := 2; zone := [record0]; trace := [] |}.

(** Server A refuses connections throughout, B accepts them only for the
    first six requests, C always accepts; the store serves. *)
Definition env_cascade : Env :=
  {| connect_ex := fun t addr _ =>
       if String.eqb addr "10.0.0.1" then Some 111
       else if String.eqb addr "10.0.0.2" then (if (t <? 6)%nat then Some 0 else Some 111)
       else Some 0;
     http_get := fun _ _ _ _ _ => None;
     dns_reply := fun _ => Served;
     now := fun _ => stamp |}.

(** Every server answers HTTP with status 404 on plain http and refuses
    TCP connections. *)
Definition env_http_only : Env :=
  {| connect_ex := fun _ _ _ => Some 111;
     http_get := fun _ protocol _ _ _ =>
       if String.eqb protocol "http" then Some 404 else Some 503;
     dns_reply := fun _ => Served;
     now := fun _ => stamp |}.

(** The engine as the constructor leaves it when the record points at A. *)
Definition s0 : Engine :=
  {| current_active_server := Some "A"; failure_counts := initial_counts cfg |}.

(** A deployment with a single server. *)
Definition cfg_single : Config :=
  {| api_token := "token"; zone_id := "zone"; domain_name := "example.com";
     record_type := "A"; ttl := 300;
     timeout := 10; check_method := None; http_check_path := None;
     failure_threshold := 1;
     servers := [("A", srvA)] |}.

(** A deployment with no server at all. *)
Definition cfg_empty : Config :=
  {| api_token := "token"; zone_id := "zone"; domain_name := "example.com";
     record_type := "A"; ttl := 300;
     timeout := 10; check_method := None; http_check_path := None;
     failure_threshold := 3;
     servers := [] |}.

(** The world one request later. *)
Definition w1 : World := {| clock := 1; zone := [record0]; trace := [] |}.

(** The world six requests later, when B has stopped answering in
    [env_cascade]. *)
Definition w6 : World := {| clock := 6; zone := [record0]; trace := [] |}.

End Example.

(** ** Lists: lookup, minimum and sorting *)

Section ListFacts.

Implicit Types (l : list (string * ServerConfig)) (x y : string * ServerConfig).

Lemma lookup_server_elem name l sc :
  lookup_server name l = Some sc -> (name, sc) ∈ l.
Proof.
  induction l as [|[n c] l IH]; simpl; [discriminate|].
  destruct (String.eqb_spec n name) as [->|_].
  - intros [= ->]. left.
  - intros H. right. auto.
Qed.

Lemma lookup_server_name name l sc :
  lookup_server name l = Some sc -> name ∈ map fst l.
Proof.
  intros H%lookup_server_elem.
  apply list_elem_of_fmap. exists (name, sc). auto.
Qed.

Lemma lookup_server_unique name l sc :
  NoDup (map fst l) -> (name, sc) ∈ l -> lookup_server name l = Some sc.
Proof.
  induction l as [|[n c] l IH]; simpl; intros Hnd Hin.
  - inversion Hin.
  - apply NoDup_cons in Hnd as [Hn Hnd].
    destruct (String.eqb_spec n name) as [->|Hne].
    + apply elem_of_cons in Hin as [[= ->]|Hin]; [reflexivity|].
      exfalso. apply Hn. apply list_elem_of_fmap. exists (name, sc). auto.
    + apply elem_of_cons in Hin as [[= -> ->]|Hin]; [congruence|]. auto.
Qed.

Lemma lookup_server_some name l :
  name ∈ map fst l -> is_Some (lookup_server name l).
Proof.
  induction l as [|[n c] l IH]; simpl; intros Hin.
  - inversion Hin.
  - destruct (String.eqb_spec n name); [eauto|].
    apply elem_of_cons in Hin as [->|Hin]; [congruence|auto].
Qed.

(** The minimum is the first item of minimal priority: it splits the
    items scanned so far into strictly larger ones before it and larger or
    equal ones after it. *)
Lemma min_by_priority_split l : forall best l1 l2,
  (forall y, y ∈ l1 -> priority (snd best) < priority (snd y)) ->
  (forall y, y ∈ l2 -> priority (snd best) <= priority (snd y)) ->
  exists l1' l2',
    l1 ++ best :: l2 ++ l = l1' ++ min_by_priority best l :: l2' /\
    (forall y, y ∈ l1' -> priority (snd (min_by_priority best l)) < priority (snd y)) /\
    (forall y, y ∈ l2' -> priority (snd (min_by_priority best l)) <= priority (snd y)).
Proof.
  induction l as [|x l IH]; intros best l1 l2 H1 H2; simpl.
  - exists l1, l2. rewrite app_nil_r. auto.
  - destruct (Z.ltb_spec (priority (snd x)) (priority (snd best))) as [Hlt|Hge].
    + destruct (IH x (l1 ++ best :: l2) []) as (l1' & l2' & Heq & H1' & H2').
      * intros y [Hy|Hy]%elem_of_app.
        -- specialize (H1 y Hy). lia.
        -- apply elem_of_cons in Hy as [->|Hy]; [lia|]. specialize (H2 y Hy). lia.
      * intros y Hy. inversion Hy.
      * exists l1', l2'. split; [|auto].
        rewrite <- Heq, <- app_assoc. reflexivity.
    + destruct (IH best l1 (l2 ++ [x])) as (l1' & l2' & Heq & H1' & H2').
      * exact H1.
      * intros y [Hy|Hy%list_elem_of_singleton]%elem_of_app; [auto|subst; lia].
      * exists l1', l2'. split; [|auto].
        rewrite <- Heq, <- app_assoc. reflexivity.
Qed.

Lemma insert_by_priority_perm x l : insert_by_priority x l ≡ₚ x :: l.
Proof.
  induction l as [|y l IH]; simpl; [reflexivity|].
  destruct (priority (snd x) <=? priority (snd y)); [reflexivity|].
  rewrite IH. apply Permutation_swap.
Qed.

Lemma sorted_by_priority_perm l : sorted_by_priority l ≡ₚ l.
Proof.
  induction l as [|x l IH]; simpl; [reflexivity|].
  rewrite insert_by_priority_perm, IH. reflexivity.
Qed.

Lemma insert_by_priority_sorted x l :
  StronglySorted by_priority l -> StronglySorted by_priority (insert_by_priority x l).
Proof.
  induction 1 as [|y l Hs IH Hall]; simpl.
  - repeat constructor.
  - destruct (Z.leb_spec (priority (snd x)) (priority (snd y))) as [Hle|Hgt].
    + constructor; [constructor; auto|].
      constructor; [exact Hle|].
      eapply Forall_impl; [exact Hall|]. unfold by_priority. intros; simpl in *; lia.
    + constructor; [exact IH|].
      rewrite insert_by_priority_perm. constructor; [unfold by_priority; lia|exact Hall].
Qed.

Lemma sorted_by_priority_sorted l : StronglySorted by_priority (sorted_by_priority l).
Proof.
  induction l; simpl; [constructor|]. apply insert_by_priority_sorted; assumption.
Qed.

Lemma filter_sorted (P : string * ServerConfig -> Prop) `{!forall x, Decision (P x)} l :
  StronglySorted by_priority l -> StronglySorted by_priority (filter P l).
Proof.
  induction 1 as [|y l Hs IH Hall]; [constructor|].
  rewrite filter_cons. destruct (decide (P y)); [|exact IH].
  constructor; [exact IH|].
  apply Forall_forall. intros z [_ Hz]%list_elem_of_filter.
  rewrite Forall_forall in Hall. apply Hall. exact Hz.
Qed.

(** In a sorted list, an earlier position never has a larger priority. *)
Lemma sorted_lookup_le l (i j : nat) x y :
  StronglySorted by_priority l -> (i <= j)%nat ->
  l !! i = Some x -> l !! j = Some y -> priority (snd x) <= priority (snd y).
Proof.
  intros Hs. revert i j. induction Hs as [|z l Hs IH Hall]; intros i j Hij Hi Hj.
  - rewrite lookup_nil in Hi. discriminate.
  - destruct i as [|i], j as [|j]; simpl in *; try lia.
    + inversion Hi; inversion Hj; subst. lia.
    + inversion Hi; subst. rewrite Forall_forall in Hall.
      apply (Hall y). eapply list_elem_of_lookup_2. exact Hj.
    + apply (IH i j); auto. lia.
Qed.

End ListFacts.

(** ** The model at work *)

(** The end-to-end run: A fails three probes while B is healthy, so the
    engine switches to B and A keeps its count 3; then B fails three probes
    while C is healthy, so the engine switches to C.  During that second
    selection A is probed as a candidate and its stored count rises to 4. *)
Example end_to_end_cascade :
  let '(s3, w3) := run_cycles Example.cfg Example.env_cascade 3 Example.s0 Example.w0 in
  let '(s6, w6) := run_cycles Example.cfg Example.env_cascade 3 s3 w3 in
  current_active_server s3 = Some "B" /\
  failure_counts s3 !! "A" = Some 3 /\ failure_counts s3 !! "B" = Some 0 /\
  rec_content <$> current_record Example.cfg w3 = Some "10.0.0.2" /\
  current_active_server s6 = Some "C" /\
  failure_counts s6 !! "A" = Some 4 /\ failure_counts s6 !! "B" = Some 3 /\
  failure_counts s6 !! "C" = Some 0 /\
  rec_content <$> current_record Example.cfg w6 = Some "10.0.0.3" /\
  puts_issued Example.w0 w6 = 2%nat.
Proof. repeat split; reflexivity. Qed.

(** All alternatives unhealthy when the threshold is reached: the active
    server stays, and nothing is written. *)
Example no_candidate_no_write :
  let '(s', w') := run_cycles Example.cfg Example.env_all_down 3 Example.s0 Example.w0 in
  current_active_server s' = Some "A" /\ puts_issued Example.w0 w' = 0%nat /\
  zone w' = zone Example.w0.
Proof. repeat split; reflexivity. Qed.

(** The check method is compared case-insensitively; an HTTP answer below
    500 counts as reachable, and port 443 is probed over https. *)
Example http_method_dispatch :
  fst (check_server Example.env_http_only "10.0.0.1" 80 "HTTP" "/" Example.w0) = true /\
  fst (check_server Example.env_http_only "10.0.0.1" 443 "Http" "/" Example.w0) = false /\
  fst (check_server Example.env_http_only "10.0.0.1" 80 "tcp" "/" Example.w0) = false.
Proof. repeat split; reflexivity. Qed.

(** ** Probes *)

Section Probes.

Context (cfg : Config) (env : Env).

Lemma probes_only_refl w : probes_only 0 w w.
Proof.
  unfold probes_only. rewrite Nat.add_0_r. repeat split.
  exists []. rewrite app_nil_r. auto.
Qed.

Lemma probes_only_tick e w : is_dns e = false -> probes_only 1 w (tick e w).
Proof.
  intros He. unfold probes_only, tick; simpl. repeat split; [lia|].
  exists [e]. auto.
Qed.

Lemma probes_only_trans j k w1 w2 w3 :
  probes_only j w1 w2 -> probes_only k w2 w3 -> probes_only (j + k) w1 w3.
Proof.
  intros (Hc1 & Hz1 & e1 & Hl1 & Hf1 & Ht1) (Hc2 & Hz2 & e2 & Hl2 & Hf2 & Ht2).
  unfold probes_only. repeat split; [lia|congruence|].
  exists (e1 ++ e2). rewrite length_app, Ht2, Ht1, app_assoc.
  repeat split; [lia|]. apply Forall_app; auto.
Qed.

(** A probe reads nothing of the world but the clock, and adds one request
    that is not a DNS request. *)
Lemma check_server_run addr p method path w :
  exists e, is_dns e = false /\
    check_server env addr p method path w =
      (fst (check_server env addr p method path
              {| clock := clock w; zone := []; trace := [] |}), tick e w).
Proof.
  unfold check_server.
  destruct (String.eqb (lower method) "http");
    unfold check_http_connection, check_tcp_connection; simpl;
    eexists; (split; [|reflexivity]); reflexivity.
Qed.

Lemma check_server_healthy_at sc w :
  exists e, is_dns e = false /\
    check_server env (ip sc) (port sc)
      (default "tcp" (check_method cfg)) (default "/" (http_check_path cfg)) w =
      (healthy_at cfg env (clock w) sc, tick e w).
Proof. apply check_server_run. Qed.

(** [_check_server_health] on a configured server that probes healthy. *)
Lemma check_health_healthy n sc s w :
  lookup_server n (servers cfg) = Some sc ->
  healthy_at cfg env (clock w) sc = true ->
  exists e, is_dns e = false /\
    _check_server_health cfg env n s w = (Ok true, with_count s n 0, tick e w).
Proof.
  intros Hl Hh. destruct (check_server_healthy_at sc w) as (e & He & Hrun).
  exists e. split; [exact He|].
  unfold _check_server_health, server_config, bind, io, ret.
  rewrite Hl; simpl. rewrite Hrun, Hh. reflexivity.
Qed.

(** [_check_server_health] on a configured server that probes unhealthy. *)
Lemma check_health_unhealthy n sc s w c :
  lookup_server n (servers cfg) = Some sc ->
  healthy_at cfg env (clock w) sc = false ->
  failure_counts s !! n = Some c ->
  exists e, is_dns e = false /\
    _check_server_health cfg env n s w = (Ok false, with_count s n (c + 1), tick e w).
Proof.
  intros Hl Hh Hc. destruct (check_server_healthy_at sc w) as (e & He & Hrun).
  exists e. split; [exact He|].
  unfold _check_server_health, server_config, bind, io, ret, get_count.
  rewrite Hl; simpl. rewrite Hrun, Hh, Hc. reflexivity.
Qed.

(** Whatever happens, [_check_server_health] touches only the counter of
    the server it probes, and never the DNS store. *)
Lemma check_health_frame n s w r s' w' :
  _check_server_health cfg env n s w = (r, s', w') ->
  current_active_server s' = current_active_server s /\
  (forall m, m <> n -> failure_counts s' !! m = failure_counts s !! m) /\
  (exists k, probes_only k w w').
Proof.
  unfold _check_server_health, server_config, bind, io, ret, raise, get_count, set_count.
  destruct (lookup_server n (servers cfg)) as [sc|]; simpl.
  - destruct (check_server_healthy_at sc w) as (e & He & ->).
    destruct (healthy_at cfg env (clock w) sc).
    + intros [= <- <- <-]; simpl. repeat split.
      * intros m Hm. apply lookup_insert_ne. congruence.
      * exists 1%nat. apply probes_only_tick, He.
    + destruct (failure_counts s !! n) as [c|]; intros [= <- <- <-]; simpl.
      * repeat split.
        -- intros m Hm. apply lookup_insert_ne. congruence.
        -- exists 1%nat. apply probes_only_tick, He.
      * repeat split. exists 1%nat. apply probes_only_tick, He.
  - intros [= <- <- <-]. repeat split. exists 0%nat. apply probes_only_refl.
Qed.

End Probes.

(** ** One cycle without failover *)

Section QuietCycles.

Context (cfg : Config) (env : Env).

Lemma truthy_name a : a <> "" -> truthy (Some a) = true.
Proof.
  intros Ha. unfold truthy. destruct (String.eqb_spec a ""); [contradiction|reflexivity].
Qed.

Lemma with_count_twice s n c d : with_count (with_count s n c) n d = with_count s n d.
Proof. unfold with_count; simpl. f_equal. apply insert_insert_eq. Qed.

Lemma with_count_same s n c : failure_counts s !! n = Some c -> with_count s n c = s.
Proof.
  intros H. destruct s as [a fc]. unfold with_count; simpl in *.
  f_equal. apply insert_id, H.
Qed.

(** The cycle when the active server probes healthy. *)
Lemma cycle_healthy s w a sa :
  current_active_server s = Some a -> a <> "" ->
  lookup_server a (servers cfg) = Some sa ->
  healthy_at cfg env (clock w) sa = true ->
  exists e, is_dns e = false /\
    check_and_failover cfg env s w = (with_count s a 0, tick e w).
Proof.
  intros Hact Ha Hl Hh.
  destruct (check_health_healthy cfg env a sa s w Hl Hh) as (e & He & Hrun).
  exists e. split; [exact He|].
  unfold check_and_failover, check_and_failover_body, bind, get_self, ret.
  rewrite Hact, (truthy_name a Ha); simpl. rewrite Hrun. reflexivity.
Qed.

(** The cycle when the active server probes unhealthy and stays below the
    threshold. *)
Lemma cycle_degraded s w a sa c :
  current_active_server s = Some a -> a <> "" ->
  lookup_server a (servers cfg) = Some sa ->
  healthy_at cfg env (clock w) sa = false ->
  failure_counts s !! a = Some c ->
  c + 1 < failure_threshold cfg ->
  exists e, is_dns e = false /\
    check_and_failover cfg env s w = (with_count s a (c + 1), tick e w).
Proof.
  intros Hact Ha Hl Hh Hc Hlt.
  destruct (check_health_unhealthy cfg env a sa s w c Hl Hh Hc) as (e & He & Hrun).
  exists e. split; [exact He|].
  unfold check_and_failover, check_and_failover_body, bind, get_self, ret, get_count.
  rewrite Hact, (truthy_name a Ha); simpl. rewrite Hrun; simpl.
  rewrite lookup_insert_eq.
  destruct (Z.leb_spec (failure_threshold cfg) (c + 1)); [lia|reflexivity].
Qed.

(** Consecutive unhealthy cycles below the threshold, from any count. *)
Lemma degraded_cycles (N : nat) : forall s w a sa c,
  current_active_server s = Some a -> a <> "" ->
  lookup_server a (servers cfg) = Some sa ->
  failure_counts s !! a = Some c ->
  c + Z.of_nat N < failure_threshold cfg ->
  (forall i, (i < N)%nat -> healthy_at cfg env (clock w + i) sa = false) ->
  exists w', probes_only N w w' /\
    run_cycles cfg env N s w = (with_count s a (c + Z.of_nat N), w').
Proof.
  induction N as [|N IH]; intros s w a sa c Hact Ha Hl Hc Hlt Hun.
  - exists w. split; [apply probes_only_refl|]. simpl.
    rewrite Z.add_0_r, with_count_same; auto.
  - assert (H0 : healthy_at cfg env (clock w) sa = false).
    { rewrite <- (Nat.add_0_r (clock w)). apply Hun. lia. }
    destruct (cycle_degraded s w a sa c Hact Ha Hl H0 Hc) as (e & He & Hrun); [lia|].
    destruct (IH (with_count s a (c + 1)) (tick e w) a sa (c + 1)) as (w' & Hw' & Hrest);
      auto.
    + simpl. apply lookup_insert_eq.
    + lia.
    + intros i Hi. replace (clock (tick e w) + i)%nat with (clock w + S i)%nat
        by (simpl; lia).
      apply Hun. lia.
    + exists w'. split.
      * apply (probes_only_trans 1 N w (tick e w) w'); [apply probes_only_tick, He|exact Hw'].
      * simpl. rewrite Hrun, Hrest, with_count_twice. f_equal. f_equal. lia.
Qed.

End QuietCycles.

(** ** The switch executor *)

Section Switch.

Context (cfg : Config) (env : Env).

Lemma new_events_app w w' evs : trace w' = trace w ++ evs -> new_events w w' = evs.
Proof. intros H. unfold new_events. rewrite H. apply drop_app_length. Qed.

Lemma new_events_tick e w : new_events w (tick e w) = [e].
Proof. apply new_events_app. reflexivity. Qed.

(** The read: its result, and the world after it. *)
Lemma get_dns_record_run name ty w :
  get_dns_record env name ty w =
    (fst (get_dns_record env name ty w),
     tick (EvDnsGet name ty (fst (get_dns_record env name ty w))) w).
Proof. reflexivity. Qed.

Lemma get_dns_record_some name ty w r :
  fst (get_dns_record env name ty w) = Some r ->
  dns_reply env (clock w) = Served /\
  head (matching_records name ty (zone w)) = Some r /\
  rec_name r = name /\ rec_type r = ty /\ r ∈ zone w.
Proof.
  unfold get_dns_record; simpl.
  destruct (dns_reply env (clock w)); try discriminate.
  intros H. split; [reflexivity|]. split; [exact H|].
  apply head_Some_elem_of in H. unfold matching_records in H.
  apply list_elem_of_filter in H as [[? ?] ?]. auto.
Qed.

(** All the ways a switch can go. *)
Lemma switch_cases new s w :
  let fetched := get_dns_record env (domain_name cfg) (record_type cfg) w in
  match lookup_server new (servers cfg) with
  | None => _switch_to_server cfg env new s w = (Ok false, s, w)
  | Some sc =>
      match fst fetched with
      | None => _switch_to_server cfg env new s w = (Ok false, s, snd fetched)
      | Some r =>
          let written := update_dns_record env (rec_id r) (domain_name cfg) (ip sc)
                           (record_type cfg) (ttl cfg) (snd fetched) in
          if fst written
          then _switch_to_server cfg env new s w = (Ok true, switched s new, snd written)
          else _switch_to_server cfg env new s w = (Ok false, s, snd written)
      end
  end.
Proof.
  unfold _switch_to_server, catch, bind, server_config, io, ret, raise.
  destruct (lookup_server new (servers cfg)) as [sc|]; simpl; [|reflexivity].
  destruct (match dns_reply env (clock w) with
            | Served => head (matching_records (domain_name cfg) (record_type cfg) (zone w))
            | _ => None end) as [r|]; simpl; [|reflexivity].
  destruct (match dns_reply env (S (clock w)) with
            | Served => has_record (rec_id r) (zone w)
            | _ => false end); reflexivity.
Qed.

(** The two requests of a switch that got as far as the write. *)
Lemma new_events_get_put name ty w rid nm addr ty' t :
  let fetched := get_dns_record env name ty w in
  let written := update_dns_record env rid nm addr ty' t (snd fetched) in
  new_events w (snd written) =
    [EvDnsGet name ty (fst fetched);
     EvDnsPut {| rec_id := rid; rec_name := nm; rec_type := ty';
                 rec_content := addr; rec_ttl := t |} (fst written)].
Proof.
  intros fetched written. apply new_events_app. simpl.
  rewrite <- app_assoc. reflexivity.
Qed.

(** C2. For every invocation of the switch executor: it returns a boolean
    (exceptions are caught); the re-fetch yields nothing when the store
    does not serve the read or lists no record, and the update is not
    confirmed when the store does not serve the write; if the re-fetch of
    the DNS record fails or returns no record, or if the update request
    fails or is rejected, the switch returns false and the engine (active
    server and all failure counts) is exactly as it was; a failed read
    issues no write, a failed write is the only write issued (no retry);
    and in general a switch that returns false leaves the engine unchanged
    and never issues more than one write. *)
Theorem failed_switch_is_atomic new s w :
  let fetched := get_dns_record env (domain_name cfg) (record_type cfg) w in
  let '(result, s', w') := _switch_to_server cfg env new s w in
  (exists b, result = Ok b) /\
  (dns_reply env (clock w) <> Served \/ current_record cfg w = None ->
     fst fetched = None) /\
  (forall sc r,
     dns_reply env (clock (snd fetched)) <> Served ->
     fst (update_dns_record env (rec_id r) (domain_name cfg) (ip sc)
            (record_type cfg) (ttl cfg) (snd fetched)) = false) /\
  (fst fetched = None ->
     result = Ok false /\ s' = s /\ puts_issued w w' = 0%nat /\ zone w' = zone w) /\
  (forall sc r,
     lookup_server new (servers cfg) = Some sc ->
     fst fetched = Some r ->
     fst (update_dns_record env (rec_id r) (domain_name cfg) (ip sc)
            (record_type cfg) (ttl cfg) (snd fetched)) = false ->
     result = Ok false /\ s' = s /\ puts_issued w w' = 1%nat /\ zone w' = zone w) /\
  (result = Ok false -> s' = s) /\
  (puts_issued w w' <= 1)%nat.
Proof.
  intros fetched. pose proof (switch_cases new s w) as H. cbv zeta in H.
  fold fetched in H.
  assert (Hread : dns_reply env (clock w) <> Served \/ current_record cfg w = None ->
                  fst fetched = None).
  { unfold fetched, get_dns_record, current_record; simpl.
    destruct (dns_reply env (clock w)); intros [Hd|Hn]; congruence. }
  assert (Hwrite : forall sc r,
            dns_reply env (clock (snd fetched)) <> Served ->
            fst (update_dns_record env (rec_id r) (domain_name cfg) (ip sc)
                   (record_type cfg) (ttl cfg) (snd fetched)) = false).
  { intros sc r. unfold update_dns_record; simpl.
    destruct (dns_reply env (S (clock w))); congruence. }
  destruct (lookup_server new (servers cfg)) as [sc|].
  - destruct (fst fetched) as [r|] eqn:Hf.
    + set (written := update_dns_record env (rec_id r) (domain_name cfg) (ip sc)
                        (record_type cfg) (ttl cfg) (snd fetched)) in *.
      assert (Hputs : puts_issued w (snd written) = 1%nat).
      { unfold puts_issued, written, fetched. rewrite new_events_get_put. reflexivity. }
      destruct (fst written) eqn:Hw; rewrite H; (split; [eauto|]); (split; [exact Hread|]); (split; [exact Hwrite|]).
      * split; [discriminate|]. split.
        -- intros sc' r' [= <-] [= <-]. fold written. rewrite Hw. discriminate.
        -- split; [discriminate|]. rewrite Hputs. lia.
      * split; [discriminate|]. split.
        -- intros sc' r' [= <-] [= <-] _. repeat split; auto.
           unfold written, update_dns_record; simpl.
           fold fetched. unfold written, update_dns_record in Hw; simpl in Hw.
           fold fetched in Hw. rewrite Hw. reflexivity.
        -- split; [auto|]. rewrite Hputs. lia.
    + rewrite H. split; [eauto|]. split; [exact Hread|]. split; [exact Hwrite|].
      assert (Hputs : puts_issued w (snd fetched) = 0%nat).
      { unfold puts_issued, fetched. rewrite get_dns_record_run; simpl.
        rewrite new_events_tick. reflexivity. }
      split; [intros _; repeat split; auto|].
      split; [intros sc' r' _ [=]|].
      split; [auto|]. rewrite Hputs. lia.
  - rewrite H. split; [eauto|]. split; [exact Hread|]. split; [exact Hwrite|].
    assert (Hputs : puts_issued w w = 0%nat).
    { unfold puts_issued. rewrite (new_events_app w w []); [reflexivity|].
      rewrite app_nil_r. reflexivity. }
    split; [intros _; repeat split; auto|].
    split; [intros sc' r' [=]|].
    split; [auto|]. rewrite Hputs. lia.
Qed.

(** C5 (amended). For every switch to a configured candidate in which the
    re-fetch of the DNS record succeeds, exactly one update request follows
    the read; it addresses the fetched record's id, sets the content to the
    candidate's address, keeps the name and type of the record just read
    (the read was filtered by the configured domain and record type, and
    those are what is written), and sets the ttl to the configured
    [dns.ttl], not to the ttl of the record read. *)
Theorem switch_request_sent new sc s w r :
  lookup_server new (servers cfg) = Some sc ->
  fst (get_dns_record env (domain_name cfg) (record_type cfg) w) = Some r ->
  let '(_, _, w') := _switch_to_server cfg env new s w in
  exists ok,
    new_events w w' =
      [EvDnsGet (domain_name cfg) (record_type cfg) (Some r);
       EvDnsPut (switch_request cfg r sc) ok] /\
    rec_id (switch_request cfg r sc) = rec_id r /\
    rec_content (switch_request cfg r sc) = ip sc /\
    rec_name (switch_request cfg r sc) = rec_name r /\
    rec_type (switch_request cfg r sc) = rec_type r /\
    rec_ttl (switch_request cfg r sc) = ttl cfg.
Proof.
  intros Hl Hf. pose proof (switch_cases new s w) as H. cbv zeta in H.
  rewrite Hl, Hf in H.
  destruct (get_dns_record_some _ _ _ _ Hf) as (_ & _ & Hname & Hty & _).
  set (written := update_dns_record env (rec_id r) (domain_name cfg) (ip sc)
                    (record_type cfg) (ttl cfg)
                    (snd (get_dns_record env (domain_name cfg) (record_type cfg) w))) in *.
  assert (Hev : new_events w (snd written) =
                  [EvDnsGet (domain_name cfg) (record_type cfg) (Some r);
                   EvDnsPut (switch_request cfg r sc) (fst written)]).
  { unfold written. rewrite new_events_get_put, Hf. reflexivity. }
  destruct (fst written) eqn:Hw; rewrite H; eexists; (split; [exact Hev|]);
    simpl; auto.
Qed.

End Switch.

Lemma switch_request_sent_witness :
  let '(_, _, w') := _switch_to_server Example.cfg Example.env_A_down "B"
                       Example.s0 Example.w0 in
  exists ok,
    new_events Example.w0 w' =
      [EvDnsGet "example.com" "A" (Some Example.record0);
       EvDnsPut (switch_request Example.cfg Example.record0 Example.srvB) ok] /\
    rec_id (switch_request Example.cfg Example.record0 Example.srvB) = "r1" /\
    rec_content (switch_request Example.cfg Example.record0 Example.srvB) = "10.0.0.2" /\
    rec_name (switch_request Example.cfg Example.record0 Example.srvB) = "example.com" /\
    rec_type (switch_request Example.cfg Example.record0 Example.srvB) = "A" /\
    rec_ttl (switch_request Example.cfg Example.record0 Example.srvB) = 300.
Proof.
  apply (switch_request_sent Example.cfg Example.env_A_down "B" Example.srvB
           Example.s0 Example.w0 Example.record0); reflexivity.
Defined.

(** C5 as stated fails: the record read has ttl 120, the request written
    carries the configured ttl 300. *)
Lemma switch_ttl_counterexample :
  exists r req ok,
    fst (get_dns_record Example.env_A_down "example.com" "A" Example.w0) = Some r /\
    new_events Example.w0
      (snd (_switch_to_server Example.cfg Example.env_A_down "B" Example.s0 Example.w0)) =
      [EvDnsGet "example.com" "A" (Some r); EvDnsPut req ok] /\
    rec_ttl req <> rec_ttl r.
Proof.
  exists Example.record0, (switch_request Example.cfg Example.record0 Example.srvB), true.
  repeat split. discriminate.
Qed.

(** ** Candidate selection *)

Section Selection.

Context (cfg : Config) (env : Env).

Implicit Types (l : list (string * ServerConfig)) (fc : gmap string Z).

(** The first healthy candidate sits at the position where probing stops,
    and every candidate before it probed unhealthy. *)
Lemma first_healthy_some l : forall t c sc,
  first_healthy cfg env t l = Some (c, sc) ->
  exists k,
    l !! k = Some (c, sc) /\
    healthy_at cfg env (t + k) sc = true /\
    (forall j n sn, (j < k)%nat -> l !! j = Some (n, sn) ->
                    healthy_at cfg env (t + j) sn = false) /\
    probes_made cfg env t l = S k.
Proof.
  induction l as [|[n sn] l IH]; intros t c sc; simpl; [discriminate|].
  destruct (healthy_at cfg env t sn) eqn:Hh.
  - intros [= -> ->]. exists 0%nat. rewrite Nat.add_0_r.
    repeat split; auto. intros j ? ? Hj. lia.
  - intros H. destruct (IH (S t) c sc H) as (k & Hk & Hhk & Hbefore & Hp).
    exists (S k). replace (t + S k)%nat with (S t + k)%nat by lia.
    repeat split; auto.
    intros [|j] m sm Hj; simpl.
    + intros [= <- <-]. rewrite Nat.add_0_r. exact Hh.
    + intros Hm. replace (t + S j)%nat with (S t + j)%nat by lia.
      apply (Hbefore j m sm); [lia|exact Hm].
Qed.

Lemma first_healthy_none l : forall t,
  first_healthy cfg env t l = None ->
  (forall j n sn, l !! j = Some (n, sn) -> healthy_at cfg env (t + j) sn = false) /\
  probes_made cfg env t l = length l.
Proof.
  induction l as [|[n sn] l IH]; intros t; simpl.
  - intros _. split; [|reflexivity]. intros j ? ?. rewrite lookup_nil. discriminate.
  - destruct (healthy_at cfg env t sn) eqn:Hh; [discriminate|].
    intros H. destruct (IH (S t) H) as [Hall Hp]. split; [|congruence].
    intros [|j] m sm; simpl.
    + intros [= <- <-]. rewrite Nat.add_0_r. exact Hh.
    + intros Hm. replace (t + S j)%nat with (S t + j)%nat by lia. eauto.
Qed.

Lemma record_probes_other l : forall t fc m,
  m ∉ map fst l -> record_probes cfg env t l fc !! m = fc !! m.
Proof.
  induction l as [|[n sn] l IH]; intros t fc m Hm; simpl; [reflexivity|].
  simpl in Hm. apply not_elem_of_cons in Hm as [Hne Hm].
  destruct (healthy_at cfg env t sn).
  - apply lookup_insert_ne. congruence.
  - rewrite IH by exact Hm. apply lookup_insert_ne. congruence.
Qed.

(** With unique names, every candidate that was probed has its verdict
    recorded, and every candidate after the chosen one keeps its count. *)
Lemma record_probes_lookup l : forall t fc j n sn,
  NoDup (map fst l) -> l !! j = Some (n, sn) ->
  ((j < probes_made cfg env t l)%nat ->
     record_probes cfg env t l fc !! n =
       Some (if healthy_at cfg env (t + j) sn then 0 else default 0 (fc !! n) + 1)) /\
  ((probes_made cfg env t l <= j)%nat ->
     record_probes cfg env t l fc !! n = fc !! n).
Proof.
  induction l as [|[m sm] l IH]; intros t fc j n sn Hnd Hj.
  - rewrite lookup_nil in Hj. discriminate.
  - simpl in Hnd. apply NoDup_cons in Hnd as [Hm Hnd]. simpl.
    destruct j as [|j]; simpl in Hj.
    + injection Hj as -> ->. rewrite Nat.add_0_r.
      destruct (healthy_at cfg env t sn) eqn:Hh.
      * split; [intros _; apply lookup_insert_eq|lia].
      * split; [|lia]. intros _. rewrite record_probes_other by exact Hm.
        apply lookup_insert_eq.
    + assert (Hne : m <> n).
      { intros ->. apply Hm. apply list_elem_of_fmap. exists (n, sn).
        split; [reflexivity|]. eapply list_elem_of_lookup_2, Hj. }
      destruct (healthy_at cfg env t sm) eqn:Hh.
      * split; [lia|]. intros _. apply lookup_insert_ne, Hne.
      * destruct (IH (S t) (<[m := default 0 (fc !! m) + 1]> fc) j n sn Hnd Hj)
          as [Hlt Hge].
        rewrite (lookup_insert_ne fc m n) in Hlt, Hge by exact Hne.
        replace (t + S j)%nat with (S t + j)%nat by lia.
        split; intros; [apply Hlt|apply Hge]; lia.
Qed.

(** The chosen candidate's count is 0 after the scan. *)
Lemma record_probes_chosen l : forall t fc c sc,
  first_healthy cfg env t l = Some (c, sc) ->
  record_probes cfg env t l fc !! c = Some 0.
Proof.
  induction l as [|[m sm] l IH]; intros t fc c sc; simpl; [discriminate|].
  destruct (healthy_at cfg env t sm).
  - intros [= -> ->]. apply lookup_insert_eq.
  - apply IH.
Qed.

Lemma record_probes_dom l : forall t fc m,
  is_Some (fc !! m) -> is_Some (record_probes cfg env t l fc !! m).
Proof.
  induction l as [|[n sn] l IH]; intros t fc m Hm; simpl; [exact Hm|].
  destruct (healthy_at cfg env t sn).
  - rewrite lookup_insert. case_decide; eauto.
  - apply IH. rewrite lookup_insert. case_decide; eauto.
Qed.

(** The loop of [_get_next_available_server] computes [first_healthy] over
    the items that are not the active server, and records every probe. *)
Lemma scan_candidates_run l : forall s w,
  (forall n sc, (n, sc) ∈ l -> lookup_server n (servers cfg) = Some sc) ->
  (forall n sc, (n, sc) ∈ l -> is_Some (failure_counts s !! n)) ->
  let cands := filter (fun x => Some (fst x) <> current_active_server s) l in
  exists w',
    probes_only (probes_made cfg env (clock w) cands) w w' /\
    scan_candidates cfg env l s w =
      (Ok (fst <$> first_healthy cfg env (clock w) cands),
       {| current_active_server := current_active_server s;
          failure_counts := record_probes cfg env (clock w) cands (failure_counts s) |},
       w').
Proof.
  induction l as [|[n sc] l IH]; intros s w Hcfg Hcov cands.
  - exists w. split; [apply probes_only_refl|]. destruct s; reflexivity.
  - assert (Hcfg' : forall m sm, (m, sm) ∈ l -> lookup_server m (servers cfg) = Some sm).
    { intros m sm Hm. apply Hcfg. right. exact Hm. }
    subst cands. rewrite filter_cons. simpl scan_candidates.
    unfold bind at 1, get_self at 1.
    destruct (decide (Some (fst (n, sc)) <> current_active_server s)) as [Hne|Heq].
    + simpl in Hne. rewrite bool_decide_eq_false_2 by exact Hne.
      unfold bind at 1. simpl first_healthy. simpl probes_made. simpl record_probes.
      destruct (healthy_at cfg env (clock w) sc) eqn:Hh.
      * destruct (check_health_healthy cfg env n sc s w) as (e & He & ->);
          [apply Hcfg; left|exact Hh|].
        exists (tick e w). split; [apply probes_only_tick, He|reflexivity].
      * destruct (Hcov n sc) as [c Hc]; [left|].
        destruct (check_health_unhealthy cfg env n sc s w c) as (e & He & ->);
          [apply Hcfg; left|exact Hh|exact Hc|].
        destruct (IH (with_count s n (c + 1)) (tick e w) Hcfg') as (w' & Hw' & Hrun).
        { intros m sm Hm. simpl. rewrite lookup_insert. case_decide; [eauto|].
          apply (Hcov m sm). right. exact Hm. }
        exists w'. split.
        -- apply (probes_only_trans 1 _ w (tick e w) w'); [apply probes_only_tick, He|].
           exact Hw'.
        -- rewrite Hrun. simpl. rewrite Hc. reflexivity.
    + apply dec_stable in Heq. simpl in Heq.
      rewrite bool_decide_eq_true_2 by exact Heq.
      apply IH; [exact Hcfg'|]. intros m sm Hm. apply (Hcov m sm). right. exact Hm.
Qed.

End Selection.

(** ** The cycle that reaches the threshold *)

Section TrippedCycle.

Context (cfg : Config) (env : Env).

Lemma sorted_items_configured n sc :
  unique_names cfg ->
  (n, sc) ∈ sorted_by_priority (servers cfg) ->
  lookup_server n (servers cfg) = Some sc.
Proof.
  intros Hnd Hin. apply lookup_server_unique; [exact Hnd|].
  rewrite <- (sorted_by_priority_perm (servers cfg)). exact Hin.
Qed.

Lemma sorted_items_named n sc :
  (n, sc) ∈ sorted_by_priority (servers cfg) -> n ∈ names cfg.
Proof.
  intros Hin. rewrite (sorted_by_priority_perm (servers cfg)) in Hin.
  apply list_elem_of_fmap. exists (n, sc). auto.
Qed.

Lemma candidates_elem s n sc :
  (n, sc) ∈ candidates cfg s ->
  Some n <> current_active_server s /\ (n, sc) ∈ sorted_by_priority (servers cfg).
Proof. unfold candidates. intros H%list_elem_of_filter. exact H. Qed.

Lemma candidates_NoDup s : unique_names cfg -> NoDup (map fst (candidates cfg s)).
Proof.
  intros Hnd. unfold candidates.
  assert (Hs : NoDup (map fst (sorted_by_priority (servers cfg)))).
  { unfold unique_names, names in Hnd.
    rewrite (sorted_by_priority_perm (servers cfg)). exact Hnd. }
  revert Hs. generalize (sorted_by_priority (servers cfg)).
  induction l as [|x l IH]; simpl; intros Hs; [constructor|].
  apply NoDup_cons in Hs as [Hx Hs]. rewrite filter_cons.
  destruct (decide _); [|auto]. simpl. apply NoDup_cons. split; [|auto].
  intros Hin. apply Hx. apply list_elem_of_fmap in Hin as (y & Hy & Hin).
  apply list_elem_of_filter in Hin as [_ Hin].
  apply list_elem_of_fmap. exists y. auto.
Qed.

(** What a cycle does once the threshold is reached: the active server's
    failure is recorded, the candidates are scanned, and the switch
    executor is called on the first healthy candidate, if any. *)
Lemma cycle_tripped s w a sa c :
  unique_names cfg -> counts_cover cfg s ->
  current_active_server s = Some a -> a <> "" ->
  lookup_server a (servers cfg) = Some sa ->
  healthy_at cfg env (clock w) sa = false ->
  failure_counts s !! a = Some c ->
  failure_threshold cfg <= c + 1 ->
  let cands := candidates cfg s in
  let s2 := {| current_active_server := Some a;
               failure_counts :=
                 record_probes cfg env (S (clock w)) cands
                   (<[a := c + 1]> (failure_counts s)) |} in
  exists w2,
    probes_only (S (probes_made cfg env (S (clock w)) cands)) w w2 /\
    check_and_failover cfg env s w =
      match first_healthy cfg env (S (clock w)) cands with
      | Some (n, _) =>
          if truthy (Some n)
          then let '(_, s3, w3) := _switch_to_server cfg env n s2 w2 in (s3, w3)
          else (s2, w2)
      | None => (s2, w2)
      end.
Proof.
  intros Hnd Hcov Hact Ha Hl Hh Hc Hthr cands s2.
  destruct (check_health_unhealthy cfg env a sa s w c Hl Hh Hc) as (e & He & Hrun).
  destruct (scan_candidates_run cfg env (sorted_by_priority (servers cfg))
              (with_count s a (c + 1)) (tick e w)) as (w2 & Hw2 & Hscan).
  { intros n sc. apply sorted_items_configured, Hnd. }
  { intros n sc Hin%sorted_items_named. simpl.
    rewrite lookup_insert. case_decide; [eauto|]. apply Hcov, Hin. }
  change (filter _ (sorted_by_priority (servers cfg))) with cands in Hw2, Hscan.
  simpl in Hw2, Hscan. rewrite Hact in Hscan. fold s2 in Hscan.
  exists w2. split.
  - apply (probes_only_trans 1 _ w (tick e w) w2); [apply probes_only_tick, He|exact Hw2].
  - unfold check_and_failover, check_and_failover_body, bind, get_self, ret, get_count.
    rewrite Hact, (truthy_name a Ha); simpl. rewrite Hrun; simpl.
    rewrite lookup_insert_eq.
    destruct (Z.leb_spec (failure_threshold cfg) (c + 1)) as [_|]; [|lia].
    unfold _get_next_available_server. rewrite Hscan.
    destruct (first_healthy cfg env (S (clock w)) cands) as [[n sn]|]; simpl;
      [|reflexivity].
    destruct (negb (String.eqb n "")); [|reflexivity].
    destruct (_switch_to_server cfg env n s2 w2) as [[[b|x] s3] w3]; reflexivity.
Qed.

End TrippedCycle.

(** ** The store after a served write *)

Section Store.

Context (cfg : Config) (env : Env).

Lemma has_record_elem (r : DNSRecord) z : r ∈ z -> has_record (rec_id r) z = true.
Proof.
  intros Hin. unfold has_record. apply existsb_exists. exists r.
  split; [apply list_elem_of_In, Hin|apply String.eqb_refl].
Qed.

(** Overwriting the record that a read returned makes the request the
    record that the next read returns. *)
Lemma overwrite_current name ty req r z :
  head (matching_records name ty z) = Some r ->
  rec_id req = rec_id r -> rec_name req = name -> rec_type req = ty ->
  head (matching_records name ty (overwrite req z)) = Some req.
Proof.
  intros Hhead Hid Hname Hty. unfold matching_records in *.
  induction z as [|x z IH]; simpl in *; [discriminate|].
  rewrite filter_cons in Hhead. rewrite filter_cons.
  destruct (decide (rec_name x = name /\ rec_type x = ty)) as [Hx|Hx].
  - simpl in Hhead. injection Hhead as ->.
    rewrite Hid, String.eqb_refl. rewrite decide_True by auto. reflexivity.
  - destruct (String.eqb (rec_id x) (rec_id req)).
    + rewrite decide_True by auto. reflexivity.
    + rewrite decide_False by exact Hx. auto.
Qed.

(** A switch whose read and write are both served. *)
Lemma switch_served new sc s w r :
  lookup_server new (servers cfg) = Some sc ->
  current_record cfg w = Some r ->
  dns_reply env (clock w) = Served ->
  dns_reply env (S (clock w)) = Served ->
  exists w',
    _switch_to_server cfg env new s w = (Ok true, switched s new, w') /\
    current_record cfg w' = Some (switch_request cfg r sc) /\
    puts_issued w w' = 1%nat.
Proof.
  intros Hl Hr Hread Hwrite. pose proof (switch_cases cfg env new s w) as H.
  cbv zeta in H. rewrite Hl in H.
  assert (Hf : fst (get_dns_record env (domain_name cfg) (record_type cfg) w) = Some r).
  { unfold get_dns_record; simpl. rewrite Hread. exact Hr. }
  rewrite Hf in H.
  destruct (get_dns_record_some env _ _ _ _ Hf) as (_ & _ & _ & _ & Hin).
  set (written := update_dns_record env (rec_id r) (domain_name cfg) (ip sc)
                    (record_type cfg) (ttl cfg)
                    (snd (get_dns_record env (domain_name cfg) (record_type cfg) w))) in *.
  assert (Hok : fst written = true).
  { unfold written, update_dns_record; simpl. rewrite Hwrite. apply has_record_elem, Hin. }
  rewrite Hok in H. exists (snd written). split; [exact H|]. split.
  - unfold current_record, written, update_dns_record; simpl. rewrite Hwrite.
    rewrite (has_record_elem r _ Hin).
    apply (overwrite_current _ _ (switch_request cfg r sc) r); auto.
  - unfold puts_issued, written. rewrite new_events_get_put. reflexivity.
Qed.

End Store.

(** ** Failover *)

Section Failover.

Context (cfg : Config) (env : Env).

Lemma run_cycles_snoc (n : nat) : forall s w,
  run_cycles cfg env (S n) s w =
    let '(s1, w1) := run_cycles cfg env n s w in check_and_failover cfg env s1 w1.
Proof.
  induction n as [|n IH]; intros s w.
  - simpl. destruct (check_and_failover cfg env s w). reflexivity.
  - change (run_cycles cfg env (S (S n)) s w)
      with (let '(s', w') := check_and_failover cfg env s w in
            run_cycles cfg env (S n) s' w').
    destruct (check_and_failover cfg env s w) as [s' w'] eqn:Hc.
    rewrite IH. simpl. rewrite Hc. reflexivity.
Qed.

Lemma candidate_not_active s a n sc :
  current_active_server s = Some a -> (n, sc) ∈ candidates cfg s -> n <> a.
Proof.
  intros Hact [Hne _]%candidates_elem. rewrite Hact in Hne. congruence.
Qed.

Lemma active_not_candidate s a :
  current_active_server s = Some a -> a ∉ map fst (candidates cfg s).
Proof.
  intros Hact Hin. apply list_elem_of_fmap in Hin as ([n sc] & -> & Hin).
  eapply candidate_not_active; eauto.
Qed.

(** The counters after a cycle that reached the threshold are those the
    candidate scan leaves, whether or not a switch followed. *)
Lemma cycle_tripped_counts s w a sa c :
  unique_names cfg -> counts_cover cfg s ->
  current_active_server s = Some a -> a <> "" ->
  lookup_server a (servers cfg) = Some sa ->
  healthy_at cfg env (clock w) sa = false ->
  failure_counts s !! a = Some c ->
  failure_threshold cfg <= c + 1 ->
  failure_counts (fst (check_and_failover cfg env s w)) =
    record_probes cfg env (S (clock w)) (candidates cfg s)
      (<[a := c + 1]> (failure_counts s)).
Proof.
  intros Hnd Hcov Hact Ha Hl Hh Hc Hthr.
  destruct (cycle_tripped cfg env s w a sa c Hnd Hcov Hact Ha Hl Hh Hc Hthr)
    as (w2 & _ & ->).
  destruct (first_healthy cfg env (S (clock w)) (candidates cfg s)) as [[n sn]|] eqn:Hfirst;
    [|reflexivity].
  destruct (truthy (Some n)); [|reflexivity].
  match goal with |- context [_switch_to_server cfg env n ?s2 w2] =>
    pose proof (switch_cases cfg env n s2 w2) as Hsw; cbv zeta in Hsw;
    set (st := s2) in *
  end.
  destruct (lookup_server n (servers cfg)); [|rewrite Hsw; reflexivity].
  destruct (fst (get_dns_record env (domain_name cfg) (record_type cfg) w2));
    [|rewrite Hsw; reflexivity].
  match type of Hsw with (if ?b then _ else _) => destruct b end;
    rewrite Hsw; [|reflexivity].
  simpl. apply insert_id. eapply record_probes_chosen, Hfirst.
Qed.

(** A cycle that reaches the threshold, finds a healthy candidate and is
    served by the store switches to that candidate. *)
Lemma cycle_switches s w a sa c0 r c sc :
  unique_names cfg -> "" ∉ names cfg -> counts_cover cfg s ->
  current_active_server s = Some a ->
  lookup_server a (servers cfg) = Some sa ->
  healthy_at cfg env (clock w) sa = false ->
  failure_counts s !! a = Some c0 ->
  failure_threshold cfg <= c0 + 1 ->
  first_healthy cfg env (S (clock w)) (candidates cfg s) = Some (c, sc) ->
  current_record cfg w = Some r ->
  (forall t, (clock w < t)%nat -> dns_reply env t = Served) ->
  exists w',
    check_and_failover cfg env s w =
      (switched {| current_active_server := Some a;
                   failure_counts :=
                     record_probes cfg env (S (clock w)) (candidates cfg s)
                       (<[a := c0 + 1]> (failure_counts s)) |} c, w') /\
    current_record cfg w' = Some (switch_request cfg r sc).
Proof.
  intros Hnd Hne Hcov Hact Hl Hh Hc Hthr Hfirst Hr Hdns.
  assert (Ha : a <> "").
  { intros ->. apply Hne. eapply lookup_server_name, Hl. }
  destruct (cycle_tripped cfg env s w a sa c0 Hnd Hcov Hact Ha Hl Hh Hc Hthr)
    as (w2 & Hw2 & ->).
  rewrite Hfirst.
  destruct (first_healthy_some cfg env _ _ _ _ Hfirst) as (k & Hk & _).
  apply list_elem_of_lookup_2 in Hk. apply candidates_elem in Hk as [_ Hk].
  assert (Hcn : c <> "").
  { intros ->. apply Hne. eapply sorted_items_named, Hk. }
  rewrite (truthy_name c Hcn).
  destruct Hw2 as (Hclock & Hzone & _).
  match goal with |- context [_switch_to_server cfg env c ?s2 w2] =>
    destruct (switch_served cfg env c sc s2 w2 r) as (w' & Hrun & Hrec & _)
  end.
  - apply sorted_items_configured; assumption.
  - unfold current_record in *. rewrite Hzone. exact Hr.
  - apply Hdns. lia.
  - apply Hdns. lia.
  - exists w'. rewrite Hrun. split; [reflexivity|exact Hrec].
Qed.

Lemma first_healthy_found l : forall t j n sn,
  l !! j = Some (n, sn) -> healthy_at cfg env (t + j) sn = true ->
  is_Some (first_healthy cfg env t l).
Proof.
  intros t j n sn Hj Hh.
  destruct (first_healthy cfg env t l) as [x|] eqn:Hf; [eauto|].
  destruct (first_healthy_none cfg env l t Hf) as [Hall _].
  rewrite (Hall j n sn Hj) in Hh. discriminate.
Qed.

Lemma candidates_sorted s : StronglySorted by_priority (candidates cfg s).
Proof. unfold candidates. apply filter_sorted, sorted_by_priority_sorted. Qed.

(** C1 (amended). Let the threshold be T = N + 1, the configuration have
    unique, non-empty server names, and the active server start with count
    0 and probe unhealthy in T consecutive cycles.  If some candidate
    probes healthy during the selection of the T-th cycle, and the store
    lists the record and serves the requests of that cycle, then after the
    T-th cycle the active server is the first healthy candidate in priority
    order: a configured server other than the old active one, whose
    priority is the smallest among the candidates that probe healthy; its
    failure count is 0, the old active server keeps the count T, and the
    DNS record's content is the new server's address. *)
Theorem failover_at_threshold (N : nat) s w a sa r :
  unique_names cfg -> "" ∉ names cfg -> counts_cover cfg s ->
  failure_threshold cfg = Z.of_nat (S N) ->
  current_active_server s = Some a ->
  lookup_server a (servers cfg) = Some sa ->
  failure_counts s !! a = Some 0 ->
  (forall i, (i <= N)%nat -> healthy_at cfg env (clock w + i) sa = false) ->
  (exists j n sn, candidates cfg s !! j = Some (n, sn) /\
                  healthy_at cfg env (clock w + S N + j) sn = true) ->
  current_record cfg w = Some r ->
  (forall t, (clock w + N < t)%nat -> dns_reply env t = Served) ->
  exists k c sc,
    candidates cfg s !! k = Some (c, sc) /\
    healthy_at cfg env (clock w + S N + k) sc = true /\
    (forall j n sn, candidates cfg s !! j = Some (n, sn) ->
                    healthy_at cfg env (clock w + S N + j) sn = true ->
                    (k <= j)%nat /\ priority sc <= priority sn) /\
    c <> a /\ lookup_server c (servers cfg) = Some sc /\
    let '(s', w') := run_cycles cfg env (S N) s w in
    current_active_server s' = Some c /\
    failure_counts s' !! c = Some 0 /\
    failure_counts s' !! a = Some (Z.of_nat (S N)) /\
    exists r', current_record cfg w' = Some r' /\ rec_content r' = ip sc.
Proof.
  intros Hnd Hne Hcov Hthr Hact Hl Hc Hun (j0 & n0 & sn0 & Hj0 & Hh0) Hr Hdns.
  assert (Ha : a <> "").
  { intros ->. apply Hne. eapply lookup_server_name, Hl. }
  (* the first N cycles *)
  destruct (degraded_cycles cfg env N s w a sa 0 Hact Ha Hl Hc) as (w1 & Hw1 & Hrun1).
  { lia. }
  { intros i Hi. apply Hun. lia. }
  destruct Hw1 as (Hclock1 & Hzone1 & _).
  set (s1 := with_count s a (0 + Z.of_nat N)) in *.
  assert (Hcands : candidates cfg s1 = candidates cfg s) by reflexivity.
  (* the selection of the last cycle *)
  assert (Hslot : forall j, (S (clock w1) + j)%nat = (clock w + S N + j)%nat).
  { intros j. rewrite Hclock1. lia. }
  destruct (first_healthy_found (candidates cfg s) (S (clock w1)) j0 n0 sn0 Hj0)
    as [[c sc] Hfirst].
  { rewrite Hslot. exact Hh0. }
  destruct (first_healthy_some cfg env _ _ _ _ Hfirst) as (k & Hk & Hhk & Hbefore & _).
  rewrite Hslot in Hhk.
  pose proof (list_elem_of_lookup_2 _ _ _ Hk) as Hin.
  destruct (cycle_switches s1 w1 a sa (0 + Z.of_nat N) r c sc) as (w' & Hrun2 & Hrec);
    auto.
  { intros n Hn. simpl. rewrite lookup_insert. case_decide; [eauto|]. apply Hcov, Hn. }
  { rewrite Hclock1. apply Hun. lia. }
  { simpl. apply lookup_insert_eq. }
  { lia. }
  { unfold current_record in *. rewrite Hzone1. exact Hr. }
  { intros t Ht. apply Hdns. lia. }
  exists k, c, sc. split; [exact Hk|]. split; [exact Hhk|]. split.
  { intros j n sn Hj Hh.
    assert (Hkj : (k <= j)%nat).
    { destruct (Nat.le_gt_cases k j) as [|Hlt]; [assumption|].
      specialize (Hbefore j n sn Hlt Hj). rewrite Hslot in Hbefore. congruence. }
    split; [exact Hkj|].
    apply (sorted_lookup_le (candidates cfg s) k j (c, sc) (n, sn));
      auto using candidates_sorted. }
  split; [eapply candidate_not_active; eauto|].
  split; [apply sorted_items_configured; [exact Hnd|]; eapply candidates_elem, Hin|].
  rewrite run_cycles_snoc, Hrun1. fold s1. rewrite Hrun2. simpl.
  split; [reflexivity|]. split; [apply lookup_insert_eq|]. split.
  - rewrite lookup_insert_ne by (eapply candidate_not_active; eauto).
    rewrite record_probes_other by (apply active_not_candidate, Hact).
    rewrite insert_insert_eq, lookup_insert_eq. f_equal. lia.
  - exists (switch_request cfg r sc). split; [exact Hrec|reflexivity].
Qed.

End Failover.

Lemma example_unique_names : unique_names Example.cfg.
Proof. unfold unique_names. apply (bool_decide_unpack _). vm_compute. exact I. Qed.

Lemma example_names_nonempty : "" ∉ names Example.cfg.
Proof. apply (bool_decide_unpack _). vm_compute. exact I. Qed.

Lemma example_counts_cover : counts_cover Example.cfg Example.s0.
Proof.
  intros n Hn. unfold names in Hn; simpl in Hn.
  repeat (apply elem_of_cons in Hn as [->|Hn]; [vm_compute; eauto|]).
  inversion Hn.
Qed.

Lemma failover_at_threshold_witness :
  exists k c sc,
    candidates Example.cfg Example.s0 !! k = Some (c, sc) /\
    healthy_at Example.cfg Example.env_A_down (0 + 3 + k) sc = true /\
    (forall j n sn, candidates Example.cfg Example.s0 !! j = Some (n, sn) ->
                    healthy_at Example.cfg Example.env_A_down (0 + 3 + j) sn = true ->
                    (k <= j)%nat /\ priority sc <= priority sn) /\
    c <> "A" /\ lookup_server c (servers Example.cfg) = Some sc /\
    let '(s', w') := run_cycles Example.cfg Example.env_A_down 3 Example.s0 Example.w0 in
    current_active_server s' = Some c /\
    failure_counts s' !! c = Some 0 /\
    failure_counts s' !! "A" = Some 3 /\
    exists r', current_record Example.cfg w' = Some r' /\ rec_content r' = ip sc.
Proof.
  apply (failover_at_threshold Example.cfg Example.env_A_down 2 Example.s0 Example.w0
           "A" Example.srvA Example.record0).
  - exact example_unique_names.
  - exact example_names_nonempty.
  - exact example_counts_cover.
  - reflexivity.
  - reflexivity.
  - reflexivity.
  - reflexivity.
  - intros i _. reflexivity.
  - exists 0%nat, "B", Example.srvB. split; reflexivity.
  - reflexivity.
  - intros t _. reflexivity.
Defined.

(** C1 as stated fails when the store does not cooperate: A probes
    unhealthy in three consecutive cycles with threshold 3, B probes
    healthy during the selection of the third cycle, yet the read of the
    DNS record fails and A stays active. *)
Lemma failover_store_down_counterexample :
  failure_threshold Example.cfg = 3 /\
  current_active_server Example.s0 = Some "A" /\
  (forall i, healthy_at Example.cfg Example.env_store_down i Example.srvA = false) /\
  candidates Example.cfg Example.s0 !! 0%nat = Some ("B", Example.srvB) /\
  healthy_at Example.cfg Example.env_store_down 3 Example.srvB = true /\
  current_active_server
    (fst (run_cycles Example.cfg Example.env_store_down 3 Example.s0 Example.w0))
    <> Some "B" /\
  current_record Example.cfg
    (snd (run_cycles Example.cfg Example.env_store_down 3 Example.s0 Example.w0))
    = Some Example.record0.
Proof.
  repeat split; try reflexivity. vm_compute. discriminate.
Qed.

(** ** Cycles below the threshold *)

Section BelowThreshold.

Context (cfg : Config) (env : Env).

Lemma probes_only_no_puts k w w' : probes_only k w w' -> puts_issued w w' = 0%nat.
Proof.
  intros (_ & _ & evs & _ & Hquiet & Htrace). unfold puts_issued.
  rewrite (new_events_app w w' evs Htrace). clear Htrace.
  induction Hquiet as [|e evs He _ IH]; [reflexivity|].
  simpl. destruct e; simpl in *; try discriminate; exact IH.
Qed.

(** C7. For every cycle in which the active server (determined, that is
    with a non-empty name, and configured) probes healthy: afterwards its
    failure count is 0, the active server is unchanged, every other count
    is unchanged, the only request issued is that probe (no DNS read or
    write, the zone is as before), and a further healthy cycle leaves the
    engine exactly as it is. *)
Theorem healthy_cycle_noop s w a sa :
  current_active_server s = Some a -> a <> "" ->
  lookup_server a (servers cfg) = Some sa ->
  healthy_at cfg env (clock w) sa = true ->
  let '(s', w') := check_and_failover cfg env s w in
  failure_counts s' !! a = Some 0 /\
  current_active_server s' = Some a /\
  (forall n, n <> a -> failure_counts s' !! n = failure_counts s !! n) /\
  probes_only 1 w w' /\
  puts_issued w w' = 0%nat /\
  (forall w2, healthy_at cfg env (clock w2) sa = true ->
              fst (check_and_failover cfg env s' w2) = s').
Proof.
  intros Hact Ha Hl Hh.
  destruct (cycle_healthy cfg env s w a sa Hact Ha Hl Hh) as (e & He & ->).
  split; [apply lookup_insert_eq|]. split; [exact Hact|]. split.
  { intros n Hn. apply lookup_insert_ne. congruence. }
  split; [apply probes_only_tick, He|]. split.
  { eapply probes_only_no_puts, probes_only_tick, He. }
  intros w2 Hh2.
  destruct (cycle_healthy cfg env (with_count s a 0) w2 a sa Hact Ha Hl Hh2)
    as (e2 & _ & ->).
  apply with_count_twice.
Qed.

(** C8. For every N below the threshold: after N consecutive cycles in
    which the active server (determined and configured, starting from
    failure count 0) probes unhealthy, its failure count is exactly N, the
    active server is unchanged, no other count has changed, and the only
    requests issued are the N probes: no switch, no DNS read or write. *)
Theorem below_threshold_counts (N : nat) s w a sa :
  Z.of_nat N < failure_threshold cfg ->
  current_active_server s = Some a -> a <> "" ->
  lookup_server a (servers cfg) = Some sa ->
  failure_counts s !! a = Some 0 ->
  (forall i, (i < N)%nat -> healthy_at cfg env (clock w + i) sa = false) ->
  let '(s', w') := run_cycles cfg env N s w in
  failure_counts s' !! a = Some (Z.of_nat N) /\
  current_active_server s' = Some a /\
  (forall n, n <> a -> failure_counts s' !! n = failure_counts s !! n) /\
  probes_only N w w' /\
  puts_issued w w' = 0%nat.
Proof.
  intros HN Hact Ha Hl Hc Hun.
  destruct (degraded_cycles cfg env N s w a sa 0 Hact Ha Hl Hc) as (w' & Hw' & ->);
    [lia|exact Hun|].
  split; [apply lookup_insert_eq|]. split; [exact Hact|]. split.
  { intros n Hn. apply lookup_insert_ne. congruence. }
  split; [exact Hw'|]. eapply probes_only_no_puts, Hw'.
Qed.

End BelowThreshold.

Lemma healthy_cycle_noop_witness :
  let '(s', w') := check_and_failover Example.cfg Example.env_all_up
                     Example.s0 Example.w0 in
  failure_counts s' !! "A" = Some 0 /\
  current_active_server s' = Some "A" /\
  (forall n, n <> "A" -> failure_counts s' !! n = failure_counts Example.s0 !! n) /\
  probes_only 1 Example.w0 w' /\
  puts_issued Example.w0 w' = 0%nat /\
  (forall w2, healthy_at Example.cfg Example.env_all_up (clock w2) Example.srvA = true ->
              fst (check_and_failover Example.cfg Example.env_all_up s' w2) = s').
Proof.
  apply (healthy_cycle_noop Example.cfg Example.env_all_up Example.s0 Example.w0
           "A" Example.srvA).
  - reflexivity.
  - discriminate.
  - reflexivity.
  - reflexivity.
Defined.

Lemma below_threshold_counts_witness :
  let '(s', w') := run_cycles Example.cfg Example.env_A_down 2 Example.s0 Example.w0 in
  failure_counts s' !! "A" = Some 2 /\
  current_active_server s' = Some "A" /\
  (forall n, n <> "A" -> failure_counts s' !! n = failure_counts Example.s0 !! n) /\
  probes_only 2 Example.w0 w' /\
  puts_issued Example.w0 w' = 0%nat.
Proof.
  apply (below_threshold_counts Example.cfg Example.env_A_down 2 Example.s0 Example.w0
           "A" Example.srvA).
  - reflexivity.
  - reflexivity.
  - discriminate.
  - reflexivity.
  - reflexivity.
  - intros i _. reflexivity.
Defined.

(** ** What a cycle does to the servers that are not active *)

Section OtherServers.

Context (cfg : Config) (env : Env).

Lemma tripped_true s w a :
  current_active_server s = Some a -> tripped cfg env s w = true ->
  a <> "" /\ exists sa c,
    lookup_server a (servers cfg) = Some sa /\
    failure_counts s !! a = Some c /\
    healthy_at cfg env (clock w) sa = false /\
    failure_threshold cfg <= c + 1.
Proof.
  intros Hact. unfold tripped. rewrite Hact. simpl.
  destruct (String.eqb_spec a "") as [|Ha]; [discriminate|]. simpl.
  destruct (lookup_server a (servers cfg)) as [sa|]; [|discriminate].
  destruct (failure_counts s !! a) as [c|]; [|discriminate].
  destruct (healthy_at cfg env (clock w) sa) eqn:Hh; [discriminate|]. simpl.
  intros Hle%Z.leb_le. split; [exact Ha|]. exists sa, c. repeat split; auto.
Qed.

(** Below the threshold a cycle touches no counter but the active one. *)
Lemma cycle_untripped_frame s w a :
  counts_cover cfg s -> current_active_server s = Some a ->
  tripped cfg env s w = false ->
  forall n, n <> a ->
    failure_counts (fst (check_and_failover cfg env s w)) !! n = failure_counts s !! n.
Proof.
  intros Hcov Hact Htr n Hn. unfold tripped in Htr. rewrite Hact in Htr.
  destruct (String.eqb_spec a "") as [->|Ha].
  - unfold check_and_failover, check_and_failover_body, bind, get_self, ret.
    rewrite Hact. reflexivity.
  - rewrite (truthy_name a Ha) in Htr. simpl in Htr.
    destruct (lookup_server a (servers cfg)) as [sa|] eqn:Hl.
    + destruct (Hcov a) as [c Hc]; [eapply lookup_server_name, Hl|].
      rewrite Hc in Htr.
      destruct (healthy_at cfg env (clock w) sa) eqn:Hh.
      * destruct (cycle_healthy cfg env s w a sa Hact Ha Hl Hh) as (e & _ & ->).
        simpl. apply lookup_insert_ne. congruence.
      * simpl in Htr. apply Z.leb_gt in Htr.
        destruct (cycle_degraded cfg env s w a sa c Hact Ha Hl Hh Hc Htr) as (e & _ & ->).
        simpl. apply lookup_insert_ne. congruence.
    + unfold check_and_failover, check_and_failover_body, bind, get_self, ret,
        _check_server_health, server_config, raise.
      rewrite Hact, (truthy_name a Ha), Hl. reflexivity.
Qed.

(** Every configured server other than the active one is a candidate. *)
Lemma candidates_complete s a n :
  current_active_server s = Some a -> n ∈ names cfg -> n <> a ->
  exists j sn, candidates cfg s !! j = Some (n, sn).
Proof.
  intros Hact Hn Hne. unfold names in Hn.
  apply list_elem_of_fmap in Hn as ([m sn] & -> & Hin). simpl in *.
  assert (Hc : (m, sn) ∈ candidates cfg s).
  { unfold candidates. apply list_elem_of_filter. split.
    - simpl. rewrite Hact. congruence.
    - rewrite (sorted_by_priority_perm (servers cfg)). exact Hin. }
  apply list_elem_of_lookup_1 in Hc as [j Hj]. eauto.
Qed.

(** C3 (amended). For every cycle from an engine whose configured servers
    all have a counter: if the cycle does not reach the threshold, the
    failure count of every server other than the active one is unchanged;
    if it does, every configured non-active server is a candidate, and the
    scan records each probe it makes in the candidate's stored count: a
    candidate probed (up to and including the first healthy one) gets
    count 0 if it probed healthy and its previous count plus one if it
    probed unhealthy; candidates after the first healthy one are not
    probed and keep their counts. *)
Theorem cycle_effect_on_other_servers s w a :
  unique_names cfg -> counts_cover cfg s ->
  current_active_server s = Some a ->
  let s' := fst (check_and_failover cfg env s w) in
  let k := probes_made cfg env (S (clock w)) (candidates cfg s) in
  (tripped cfg env s w = false ->
     forall n, n <> a -> failure_counts s' !! n = failure_counts s !! n) /\
  (forall n, n ∈ names cfg -> n <> a ->
     exists j sn, candidates cfg s !! j = Some (n, sn)) /\
  (tripped cfg env s w = true ->
     forall j n sn, candidates cfg s !! j = Some (n, sn) ->
       n <> a /\
       ((j < k)%nat ->
          failure_counts s' !! n =
            Some (if healthy_at cfg env (S (clock w) + j) sn then 0
                  else default 0 (failure_counts s !! n) + 1)) /\
       ((k <= j)%nat -> failure_counts s' !! n = failure_counts s !! n)).
Proof.
  intros Hnd Hcov Hact s' k. split; [|split].
  - intros Htr. apply cycle_untripped_frame; assumption.
  - intros n. apply candidates_complete, Hact.
  - intros Htr j n sn Hj.
    destruct (tripped_true s w a Hact Htr) as (Ha & sa & c & Hl & Hc & Hh & Hthr).
    assert (Hne : n <> a).
    { eapply candidate_not_active; [exact Hact|]. eapply list_elem_of_lookup_2, Hj. }
    split; [exact Hne|].
    subst s' k.
    rewrite (cycle_tripped_counts cfg env s w a sa c Hnd Hcov Hact Ha Hl Hh Hc Hthr).
    destruct (record_probes_lookup cfg env (candidates cfg s) (S (clock w))
                (<[a := c + 1]> (failure_counts s)) j n sn
                (candidates_NoDup cfg s Hnd) Hj) as [Hlt Hge].
    rewrite (lookup_insert_ne (failure_counts s) a n) in Hlt, Hge by congruence.
    split; assumption.
Qed.

End OtherServers.

Lemma cycle_effect_on_other_servers_witness :
  let s' := fst (check_and_failover Example.cfg1 Example.env_all_down
                   Example.s0 Example.w0) in
  let k := probes_made Example.cfg1 Example.env_all_down 1
             (candidates Example.cfg1 Example.s0) in
  (tripped Example.cfg1 Example.env_all_down Example.s0 Example.w0 = false ->
     forall n, n <> "A" -> failure_counts s' !! n = failure_counts Example.s0 !! n) /\
  (forall n, n ∈ names Example.cfg1 -> n <> "A" ->
     exists j sn, candidates Example.cfg1 Example.s0 !! j = Some (n, sn)) /\
  (tripped Example.cfg1 Example.env_all_down Example.s0 Example.w0 = true ->
     forall j n sn, candidates Example.cfg1 Example.s0 !! j = Some (n, sn) ->
       n <> "A" /\
       ((j < k)%nat ->
          failure_counts s' !! n =
            Some (if healthy_at Example.cfg1 Example.env_all_down (1 + j) sn then 0
                  else default 0 (failure_counts Example.s0 !! n) + 1)) /\
       ((k <= j)%nat -> failure_counts s' !! n = failure_counts Example.s0 !! n)).
Proof.
  apply (cycle_effect_on_other_servers Example.cfg1 Example.env_all_down
           Example.s0 Example.w0 "A").
  - exact example_unique_names.
  - exact example_counts_cover.
  - reflexivity.
Defined.

(** C3 as stated fails: with threshold 1 and no server reachable, one
    cycle probes the candidates B and C and increments their counts,
    although neither is the active server. *)
Lemma candidate_count_incremented_counterexample :
  current_active_server Example.s0 = Some "A" /\
  failure_counts Example.s0 !! "B" = Some 0 /\
  failure_counts
    (fst (check_and_failover Example.cfg1 Example.env_all_down Example.s0 Example.w0))
    !! "B" = Some 1.
Proof. repeat split; reflexivity. Qed.

(** ** Construction: the active-server resolver *)

Section Resolver.

Context (cfg : Config) (env : Env).

Lemma find_by_ip_some addr l n :
  find_by_ip addr l = Some n -> first_with_ip l addr n.
Proof.
  induction l as [|[m sm] l IH]; simpl; [discriminate|].
  destruct (String.eqb_spec (ip sm) addr) as [He|Hne].
  - intros [= ->]. exists sm, [], l. repeat split; auto.
    intros y Hy. inversion Hy.
  - intros H. destruct (IH H) as (sc & l1 & l2 & -> & Hip & Hbefore).
    exists sc, ((m, sm) :: l1), l2. repeat split; auto.
    intros y [->|Hy]%elem_of_cons; auto.
Qed.

Lemma find_by_ip_none addr l :
  find_by_ip addr l = None -> forall m sm, (m, sm) ∈ l -> ip sm <> addr.
Proof.
  induction l as [|[m' sm'] l IH]; simpl; intros H m sm Hin.
  - inversion Hin.
  - destruct (String.eqb_spec (ip sm') addr) as [He|Hne]; [discriminate|].
    apply elem_of_cons in Hin as [[= -> ->]|Hin]; eauto.
Qed.

Lemma min_by_priority_first x l :
  first_minimum (x :: l) (fst (min_by_priority x l)).
Proof.
  destruct (min_by_priority_split l x [] []) as (l1 & l2 & Heq & H1 & H2).
  - intros y Hy. inversion Hy.
  - intros y Hy. inversion Hy.
  - simpl in Heq. destruct (min_by_priority x l) as [n sc] eqn:Hm.
    exists sc, l1, l2. auto.
Qed.

Lemma first_minimum_named l n : first_minimum l n -> n ∈ map fst l.
Proof.
  intros (sc & l1 & l2 & -> & _). rewrite map_app. apply elem_of_app. right. left.
Qed.

Lemma first_with_ip_named l addr n : first_with_ip l addr n -> n ∈ map fst l.
Proof.
  intros (sc & l1 & l2 & -> & _). rewrite map_app. apply elem_of_app. right. left.
Qed.

(** C10. The fallback selection depends on the configuration only: with
    no server configured it raises; otherwise it returns, from any engine
    state and world (so any two runs agree), the first server in insertion
    order among those of numerically smallest priority. *)
Theorem fallback_is_first_minimum :
  match servers cfg with
  | [] => forall s w, _get_highest_priority_server cfg s w = (Raise ValueError, s, w)
  | _ :: _ =>
      exists n, first_minimum (servers cfg) n /\
        forall s w, _get_highest_priority_server cfg s w = (Ok n, s, w)
  end.
Proof.
  unfold _get_highest_priority_server.
  destruct (servers cfg) as [|x l]; [reflexivity|].
  exists (fst (min_by_priority x l)). split; [apply min_by_priority_first|reflexivity].
Qed.

(** C9. At construction (with at least one server configured) the resolver
    issues exactly one request, the read of the DNS record, and no write;
    every counter starts at 0; and the active server is set: to the first
    configured server whose address is the record's content when a record
    is found and some server has that address, and to the first server of
    numerically smallest priority when no record is found, the read fails
    or is rejected, or no server has the record's content as address. *)
Theorem resolver_sets_active w :
  servers cfg <> [] ->
  let fetched := fst (get_dns_record env (domain_name cfg) (record_type cfg) w) in
  exists n,
    DNSFailover cfg env w =
      (Ok tt,
       {| current_active_server := Some n; failure_counts := initial_counts cfg |},
       tick (EvDnsGet (domain_name cfg) (record_type cfg) fetched) w) /\
    n ∈ names cfg /\
    (dns_reply env (clock w) <> Served -> fetched = None) /\
    (forall r m sm, fetched = Some r -> (m, sm) ∈ servers cfg -> ip sm = rec_content r ->
                    first_with_ip (servers cfg) (rec_content r) n) /\
    (fetched = None -> first_minimum (servers cfg) n) /\
    (forall r, fetched = Some r ->
               (forall m sm, (m, sm) ∈ servers cfg -> ip sm <> rec_content r) ->
               first_minimum (servers cfg) n).
Proof.
  intros Hne fetched.
  assert (Hdown : dns_reply env (clock w) <> Served -> fetched = None).
  { unfold fetched, get_dns_record; simpl.
    destruct (dns_reply env (clock w)); congruence. }
  assert (Hfallback : exists n, first_minimum (servers cfg) n /\
            forall v, default_to_highest_priority cfg
              {| current_active_server := None; failure_counts := initial_counts cfg |} v =
              (Ok tt, {| current_active_server := Some n;
                         failure_counts := initial_counts cfg |}, v)).
  { unfold default_to_highest_priority, bind, get_self, set_active,
      _get_highest_priority_server, ret. simpl.
    destruct (servers cfg) as [|x l] eqn:Hs; [congruence|].
    exists (fst (min_by_priority x l)). split; [apply min_by_priority_first|reflexivity]. }
  destruct Hfallback as (nmin & Hmin & Hrun).
  unfold DNSFailover, _determine_current_active_server, bind, io.
  rewrite get_dns_record_run. fold fetched.
  destruct fetched as [r|] eqn:Hf.
  - destruct (find_by_ip (rec_content r) (servers cfg)) as [n|] eqn:Hfind.
    + exists n. split; [reflexivity|].
      pose proof (find_by_ip_some _ _ _ Hfind) as Hfirst.
      split; [eapply first_with_ip_named, Hfirst|]. split; [exact Hdown|].
      split; [intros r' m sm [= <-] _ _; exact Hfirst|].
      split; [discriminate|].
      intros r' [= <-] Hnone. destruct Hfirst as (sc & l1 & l2 & Heq & Hip & _).
      exfalso. apply (Hnone n sc); [|exact Hip].
      rewrite Heq. apply elem_of_app. right. left.
    + exists nmin. rewrite Hrun. split; [reflexivity|].
      split; [eapply first_minimum_named, Hmin|]. split; [exact Hdown|].
      split.
      { intros r' m sm [= <-] Hin Hip. exfalso.
        eapply find_by_ip_none; eauto. }
      split; [discriminate|]. intros; exact Hmin.
  - exists nmin. rewrite Hrun. split; [reflexivity|].
    split; [eapply first_minimum_named, Hmin|]. split; [exact Hdown|].
    split; [discriminate|]. split; [intros; exact Hmin|discriminate].
Qed.

End Resolver.

Lemma resolver_sets_active_witness :
  let fetched := fst (get_dns_record Example.env_all_up "example.com" "A" Example.w0) in
  exists n,
    DNSFailover Example.cfg Example.env_all_up Example.w0 =
      (Ok tt,
       {| current_active_server := Some n;
          failure_counts := initial_counts Example.cfg |},
       tick (EvDnsGet "example.com" "A" fetched) Example.w0) /\
    n ∈ names Example.cfg /\
    (dns_reply Example.env_all_up (clock Example.w0) <> Served -> fetched = None) /\
    (forall r m sm, fetched = Some r -> (m, sm) ∈ servers Example.cfg ->
                    ip sm = rec_content r ->
                    first_with_ip (servers Example.cfg) (rec_content r) n) /\
    (fetched = None -> first_minimum (servers Example.cfg) n) /\
    (forall r, fetched = Some r ->
               (forall m sm, (m, sm) ∈ servers Example.cfg -> ip sm <> rec_content r) ->
               first_minimum (servers Example.cfg) n).
Proof.
  apply (resolver_sets_active Example.cfg Example.env_all_up Example.w0).
  discriminate.
Defined.

(** The record points at B: B becomes active, and nothing is written. *)
Example resolver_finds_B :
  let w := {| clock := 0;
              zone := [{| rec_id := "r1"; rec_name := "example.com"; rec_type := "A";
                          rec_content := "10.0.0.2"; rec_ttl := 120 |}];
              trace := [] |} in
  let '(_, s, w') := DNSFailover Example.cfg Example.env_all_up w in
  current_active_server s = Some "B" /\ puts_issued w w' = 0%nat /\ zone w' = zone w.
Proof. repeat split; reflexivity. Qed.

(** The record points at no configured server and two servers share the
    smallest priority: the one configured first becomes active. *)
Example resolver_tie_falls_back_to_first :
  let '(_, s, _) := DNSFailover Example.cfg_tie Example.env_all_up Example.w_foreign in
  current_active_server s = Some "B".
Proof. reflexivity. Qed.

(** ** The status snapshot *)

Section StatusSnapshot.

Context (cfg : Config) (env : Env).

(** [_check_server_health] on a configured server that has a counter. *)
Lemma check_health_run n sc s w c0 :
  lookup_server n (servers cfg) = Some sc ->
  failure_counts s !! n = Some c0 ->
  let h := healthy_at cfg env (clock w) sc in
  exists e, is_dns e = false /\
    _check_server_health cfg env n s w =
      (Ok h, with_count s n (if h then 0 else c0 + 1), tick e w).
Proof.
  intros Hl Hc h. subst h. destruct (healthy_at cfg env (clock w) sc) eqn:Hh.
  - apply (check_health_healthy cfg env n sc); assumption.
  - apply (check_health_unhealthy cfg env n sc); assumption.
Qed.

(** The loop of [get_status]: one probe per item, each recorded in the
    item's counter and reported with the counter's new value. *)
Lemma status_entries_run l : forall s w,
  (forall n sc, (n, sc) ∈ l -> lookup_server n (servers cfg) = Some sc) ->
  NoDup (map fst l) ->
  (forall n, n ∈ map fst l -> is_Some (failure_counts s !! n)) ->
  exists entries s' w',
    status_entries cfg env l s w = (Ok entries, s', w') /\
    current_active_server s' = current_active_server s /\
    probes_only (length l) w w' /\
    map fst entries = map fst l /\
    (forall n, n ∉ map fst l -> failure_counts s' !! n = failure_counts s !! n) /\
    (forall (i : nat) n sc, l !! i = Some (n, sc) ->
       exists c0, failure_counts s !! n = Some c0 /\
         let h := healthy_at cfg env (clock w + i) sc in
         let c := if h then 0 else c0 + 1 in
         entries !! i =
           Some (n, {| st_ip := ip sc; st_port := port sc; st_priority := priority sc;
                       st_healthy := h; st_failure_count := c |}) /\
         failure_counts s' !! n = Some c).
Proof.
  induction l as [|[n sc] l IH]; intros s w Hcfg Hnd Hcov.
  - exists [], s, w. simpl. split; [reflexivity|]. split; [reflexivity|].
    split; [apply probes_only_refl|]. split; [reflexivity|]. split; [auto|].
    intros i ? ?. rewrite lookup_nil. discriminate.
  - simpl in Hnd. apply NoDup_cons in Hnd as [Hn Hnd].
    destruct (Hcov n) as [c0 Hc0]; [left|].
    destruct (check_health_run n sc s w c0) as (e & He & Hrun);
      [apply Hcfg; left|exact Hc0|].
    set (h := healthy_at cfg env (clock w) sc) in *.
    set (c := if h then 0 else c0 + 1) in *.
    destruct (IH (with_count s n c) (tick e w)) as (rest & s' & w' & Hrest & Hact & Hw' & Hnames & Hframe & Hentries).
    { intros m sm Hm. apply Hcfg. right. exact Hm. }
    { exact Hnd. }
    { intros m Hm. simpl. rewrite lookup_insert. case_decide; [eauto|].
      apply Hcov. right. exact Hm. }
    eexists _, s', w'. split.
    { simpl. unfold bind at 1. rewrite Hrun.
      unfold bind at 1, get_count at 1. simpl. rewrite lookup_insert_eq.
      unfold bind at 1. rewrite Hrest. reflexivity. }
    split; [exact Hact|]. split.
    { apply (probes_only_trans 1 _ w (tick e w) w'); [apply probes_only_tick, He|exact Hw']. }
    split; [simpl; rewrite Hnames; reflexivity|]. split.
    { intros m Hm. simpl in Hm. apply not_elem_of_cons in Hm as [Hne Hm].
      rewrite (Hframe m Hm). simpl. apply lookup_insert_ne. congruence. }
    intros [|i] m sm Hi; simpl in Hi.
    + injection Hi as <- <-. exists c0. split; [exact Hc0|].
      rewrite Nat.add_0_r. fold h. fold c. split; [reflexivity|].
      rewrite (Hframe n Hn). simpl. apply lookup_insert_eq.
    + destruct (Hentries i m sm Hi) as (c1 & Hc1 & Hentry & Hafter).
      assert (Hne : n <> m).
      { intros ->. apply Hn. apply list_elem_of_fmap. exists (m, sm).
        split; [reflexivity|]. eapply list_elem_of_lookup_2, Hi. }
      simpl in Hc1. rewrite lookup_insert_ne in Hc1 by exact Hne.
      exists c1. split; [exact Hc1|].
      replace (clock w + S i)%nat with (clock (tick e w) + i)%nat by (simpl; lia).
      split; [exact Hentry|exact Hafter].
Qed.

(** Whatever it returns, [get_status] leaves the active server alone and
    issues no DNS request. *)
Lemma status_entries_frame l : forall s w r s' w',
  status_entries cfg env l s w = (r, s', w') ->
  current_active_server s' = current_active_server s /\ exists k, probes_only k w w'.
Proof.
  induction l as [|[n sc] l IH]; intros s w r s' w'; simpl.
  - intros [= <- <- <-]. split; [reflexivity|]. exists 0%nat. apply probes_only_refl.
  - unfold bind at 1.
    destruct (_check_server_health cfg env n s w) as [[r1 s1] w1] eqn:Hcheck.
    destruct (check_health_frame cfg env n s w r1 s1 w1 Hcheck) as (Hact1 & _ & k1 & Hk1).
    destruct r1 as [h|x].
    + unfold bind at 1, get_count at 1.
      destruct (failure_counts s1 !! n) as [c|].
      * unfold bind at 1.
        destruct (status_entries cfg env l s1 w1) as [[r2 s2] w2] eqn:Hrest.
        destruct (IH s1 w1 r2 s2 w2 Hrest) as (Hact2 & k2 & Hk2).
        assert (Hact' : current_active_server s2 = current_active_server s) by congruence.
        assert (Hw2 : probes_only (k1 + k2) w w2) by (eapply probes_only_trans; eauto).
        destruct r2; intros [= <- <- <-]; eauto.
      * intros [= <- <- <-]. eauto.
    + intros [= <- <- <-]. eauto.
Qed.

(** C4 (amended). For every engine state, [get_status] leaves the active
    server unchanged and issues no DNS request; but it is not read-only:
    it probes every configured server and records each verdict in the
    stored failure counts.  With unique names and a counter for every
    server, it returns the timestamp, the active server's name, and, for
    each configured server in insertion order, its address, port and
    priority, the verdict of that fresh probe, and the failure count after
    recording it (0 when healthy, the previous count plus one when
    unhealthy), which is also the count stored afterwards. *)
Theorem status_snapshot s w :
  (forall r s' w', get_status cfg env s w = (r, s', w') ->
     current_active_server s' = current_active_server s /\
     zone w' = zone w /\ puts_issued w w' = 0%nat) /\
  (unique_names cfg -> counts_cover cfg s ->
   exists entries s' w',
     get_status cfg env s w =
       (Ok {| st_current_active_server := current_active_server s;
              st_timestamp := now env (clock w);
              st_servers := entries |}, s', w') /\
     probes_only (length (servers cfg)) w w' /\
     map fst entries = names cfg /\
     (forall n, n ∉ names cfg -> failure_counts s' !! n = failure_counts s !! n) /\
     (forall (i : nat) n sc, servers cfg !! i = Some (n, sc) ->
        exists c0, failure_counts s !! n = Some c0 /\
          let h := healthy_at cfg env (clock w + i) sc in
          let c := if h then 0 else c0 + 1 in
          entries !! i =
            Some (n, {| st_ip := ip sc; st_port := port sc; st_priority := priority sc;
                        st_healthy := h; st_failure_count := c |}) /\
          failure_counts s' !! n = Some c)).
Proof.
  split.
  - intros r s' w'. unfold get_status, bind, get_self, io, ret. simpl.
    destruct (status_entries cfg env (servers cfg) s w) as [[r1 s1] w1] eqn:Hrun.
    destruct (status_entries_frame _ _ _ _ _ _ Hrun) as (Hact & k & Hk).
    pose proof (probes_only_no_puts k w w1 Hk) as Hputs.
    destruct Hk as (_ & Hzone & _).
    destruct r1; intros [= <- <- <-]; auto.
  - intros Hnd Hcov.
    destruct (status_entries_run (servers cfg) s w)
      as (entries & s' & w' & Hrun & Hact & Hw' & Hnames & Hframe & Hentries).
    { intros n sc Hin. apply lookup_server_unique; assumption. }
    { exact Hnd. }
    { exact Hcov. }
    exists entries, s', w'. split.
    { unfold get_status, bind, get_self, io, ret. simpl. rewrite Hrun. reflexivity. }
    auto.
Qed.

End StatusSnapshot.

Lemma status_snapshot_witness :
  exists entries s' w',
    get_status Example.cfg Example.env_A_down Example.s0 Example.w0 =
      (Ok {| st_current_active_server := Some "A";
             st_timestamp := Example.stamp;
             st_servers := entries |}, s', w') /\
    probes_only 3 Example.w0 w' /\
    map fst entries = ["A"; "B"; "C"] /\
    (forall n, n ∉ names Example.cfg ->
               failure_counts s' !! n = failure_counts Example.s0 !! n) /\
    (forall (i : nat) n sc, servers Example.cfg !! i = Some (n, sc) ->
       exists c0, failure_counts Example.s0 !! n = Some c0 /\
         let h := healthy_at Example.cfg Example.env_A_down (0 + i) sc in
         let c := if h then 0 else c0 + 1 in
         entries !! i =
           Some (n, {| st_ip := ip sc; st_port := port sc; st_priority := priority sc;
                       st_healthy := h; st_failure_count := c |}) /\
         failure_counts s' !! n = Some c).
Proof.
  apply (proj2 (status_snapshot Example.cfg Example.env_A_down Example.s0 Example.w0)).
  - exact example_unique_names.
  - exact example_counts_cover.
Defined.

(** C4 as stated fails: asking for the status while A is unreachable
    raises A's stored failure count from 0 to 1. *)
Lemma status_changes_counts_counterexample :
  failure_counts Example.s0 !! "A" = Some 0 /\
  let '(_, s', _) := get_status Example.cfg Example.env_A_down Example.s0 Example.w0 in
  failure_counts s' !! "A" = Some 1.
Proof. split; reflexivity. Qed.

(** ** The active server across the engine's life *)

Section ActiveServer.

Context (cfg : Config) (env : Env).

Lemma scan_candidates_frame l : forall s w r s' w',
  scan_candidates cfg env l s w = (r, s', w') ->
  current_active_server s' = current_active_server s /\ exists k, probes_only k w w'.
Proof.
  induction l as [|[n sc] l IH]; intros s w r s' w'; simpl.
  - intros [= <- <- <-]. split; [reflexivity|]. exists 0%nat. apply probes_only_refl.
  - unfold bind at 1, get_self at 1.
    destruct (bool_decide (Some n = current_active_server s)); [apply IH|].
    unfold bind at 1.
    destruct (_check_server_health cfg env n s w) as [[r1 s1] w1] eqn:Hcheck.
    destruct (check_health_frame cfg env n s w r1 s1 w1 Hcheck) as (Hact1 & _ & k1 & Hk1).
    destruct r1 as [[|]|x].
    + intros [= <- <- <-]. eauto.
    + intros Hrest. destruct (IH s1 w1 r s' w' Hrest) as (Hact2 & k2 & Hk2).
      split; [congruence|]. exists (k1 + k2)%nat. eapply probes_only_trans; eauto.
    + intros [= <- <- <-]. eauto.
Qed.

(** A switch either leaves the engine as it is, or makes a configured
    server active after a write that the store confirmed. *)
Lemma switch_outcome n s w r s' w' :
  _switch_to_server cfg env n s w = (r, s', w') ->
  (s' = s /\ exists evs, trace w' = trace w ++ evs) \/
  (exists sc rec g,
     lookup_server n (servers cfg) = Some sc /\ s' = switched s n /\
     trace w' = trace w ++ [g; EvDnsPut (switch_request cfg rec sc) true]).
Proof.
  pose proof (switch_cases cfg env n s w) as H. cbv zeta in H.
  destruct (lookup_server n (servers cfg)) as [sc|].
  - destruct (fst (get_dns_record env (domain_name cfg) (record_type cfg) w))
      as [rec|] eqn:Hf.
    + match type of H with (if fst ?u then _ else _) => set (written := u) in * end.
      assert (Htrace : trace (snd written) =
                trace w ++ [EvDnsGet (domain_name cfg) (record_type cfg) (Some rec);
                            EvDnsPut (switch_request cfg rec sc) (fst written)]).
      { unfold written. simpl. rewrite <- app_assoc. simpl.
        unfold get_dns_record in Hf; simpl in Hf. rewrite Hf. reflexivity. }
      destruct (fst written); rewrite H; intros [= <- <- <-].
      * right. exists sc, rec. eauto.
      * left. eauto.
    + rewrite H. intros [= <- <- <-]. left. split; [reflexivity|]. simpl. eauto.
  - rewrite H. intros [= <- <- <-]. left. split; [reflexivity|].
    exists []. rewrite app_nil_r. reflexivity.
Qed.

(** A cycle changes the active server only by such a switch. *)
Lemma cycle_active s w :
  let '(s', w') := check_and_failover cfg env s w in
  current_active_server s' = current_active_server s \/
  exists c sc rec pre,
    current_active_server s' = Some c /\
    lookup_server c (servers cfg) = Some sc /\
    new_events w w' = pre ++ [EvDnsPut (switch_request cfg rec sc) true].
Proof.
  unfold check_and_failover, check_and_failover_body.
  unfold bind at 1, get_self at 1.
  destruct (current_active_server s) as [a|] eqn:Hact; [|left; exact Hact].
  destruct (negb (truthy (Some a))); [left; exact Hact|].
  unfold bind at 1.
  destruct (_check_server_health cfg env a s w) as [[r1 s1] w1] eqn:Hcheck.
  destruct (check_health_frame cfg env a s w r1 s1 w1 Hcheck) as (Hact1 & _ & k1 & Hk1).
  destruct r1 as [[|]|x]; try (left; congruence).
  unfold bind at 1, get_count at 1.
  destruct (failure_counts s1 !! a) as [c|]; [|left; congruence].
  destruct (failure_threshold cfg <=? c); [|left; congruence].
  unfold bind at 1, _get_next_available_server.
  destruct (scan_candidates cfg env (sorted_by_priority (servers cfg)) s1 w1)
    as [[r2 s2] w2] eqn:Hscan.
  destruct (scan_candidates_frame _ _ _ _ _ _ Hscan) as (Hact2 & k2 & Hk2).
  destruct r2 as [[n|]|x]; try (left; congruence).
  destruct (truthy (Some n)); [|left; congruence].
  unfold bind at 1.
  destruct (_switch_to_server cfg env n s2 w2) as [[r3 s3] w3] eqn:Hswitch.
  assert (Hgoal : current_active_server s3 = Some a \/
            exists c sc rec pre,
              current_active_server s3 = Some c /\
              lookup_server c (servers cfg) = Some sc /\
              new_events w w3 = pre ++ [EvDnsPut (switch_request cfg rec sc) true]).
  { destruct (switch_outcome n s2 w2 r3 s3 w3 Hswitch)
      as [[-> _]|(sc & rec & g & Hl & -> & Htrace)]; [left; congruence|].
    right. exists n, sc, rec.
    destruct (probes_only_trans _ _ _ _ _ Hk1 Hk2) as (_ & _ & evs & _ & _ & Hevs).
    exists (evs ++ [g]). split; [reflexivity|]. split; [exact Hl|].
    apply new_events_app. rewrite Htrace, Hevs, <- !app_assoc. reflexivity. }
  destruct r3; exact Hgoal.
Qed.

(** The constructor, when it returns, has made a configured server active. *)
Lemma constructor_active w s w' :
  DNSFailover cfg env w = (Ok tt, s, w') ->
  exists n, current_active_server s = Some n /\ n ∈ names cfg.
Proof.
  unfold DNSFailover, _determine_current_active_server, bind, io.
  rewrite get_dns_record_run.
  assert (Hfallback : forall s0 v,
            current_active_server s0 = None ->
            default_to_highest_priority cfg s0 v = (Ok tt, s, w') ->
            exists n, current_active_server s = Some n /\ n ∈ names cfg).
  { intros s0 v Hnone. unfold default_to_highest_priority, bind, get_self, set_active,
      _get_highest_priority_server, ret, raise. rewrite Hnone. simpl.
    unfold names. destruct (servers cfg) as [|x l]; [discriminate|].
    intros [= <- <-]. simpl. eexists. split; [reflexivity|].
    apply (first_minimum_named (x :: l)), min_by_priority_first. }
  destruct (fst (get_dns_record env (domain_name cfg) (record_type cfg) w)) as [r|].
  - destruct (find_by_ip (rec_content r) (servers cfg)) as [n|] eqn:Hfind.
    + intros [= <- <-]. simpl. exists n. split; [reflexivity|].
      eapply first_with_ip_named, find_by_ip_some, Hfind.
    + apply Hfallback. reflexivity.
  - apply Hfallback. reflexivity.
Qed.

(** C6. Invariant on the engine: in every state reachable from the
    constructor by cycles and status requests (with the world free to
    change in between), the active server is set and names a configured
    server; a cycle changes it only to a configured server, and only when
    the last request of the cycle is an update of the DNS record to that
    server's address which the store confirmed; a status request never
    changes it. *)
Theorem active_server_invariant :
  (forall s w, reachable cfg env s w ->
     exists n, current_active_server s = Some n /\ n ∈ names cfg) /\
  (forall s w,
     let '(s', w') := check_and_failover cfg env s w in
     current_active_server s' = current_active_server s \/
     exists c sc rec pre,
       current_active_server s' = Some c /\
       lookup_server c (servers cfg) = Some sc /\
       rec_content (switch_request cfg rec sc) = ip sc /\
       new_events w w' = pre ++ [EvDnsPut (switch_request cfg rec sc) true]) /\
  (forall s w,
     let '(_, s', _) := get_status cfg env s w in
     current_active_server s' = current_active_server s).
Proof.
  assert (Hstatus : forall s w r s' w',
            get_status cfg env s w = (r, s', w') ->
            current_active_server s' = current_active_server s).
  { intros s w r s' w'. unfold get_status, bind, get_self, io, ret. simpl.
    destruct (status_entries cfg env (servers cfg) s w) as [[r1 s1] w1] eqn:Hrun.
    destruct (status_entries_frame _ _ _ _ _ _ _ _ Hrun) as (Hact & _).
    destruct r1; intros [= <- <- <-]; exact Hact. }
  split; [|split].
  - intros s w Hreach.
    induction Hreach as [w s w' Hinit|s w s' w' _ IH Hcycle|s w r s' w' _ IH Hst|s w w' _ IH].
    + eapply constructor_active, Hinit.
    + pose proof (cycle_active s w) as H. rewrite Hcycle in H.
      destruct H as [H|(c & sc & _ & _ & H & Hl & _)].
      * rewrite H. exact IH.
      * exists c. split; [exact H|]. eapply lookup_server_name, Hl.
    + rewrite (Hstatus _ _ _ _ _ Hst). exact IH.
    + exact IH.
  - intros s w. pose proof (cycle_active s w) as H.
    destruct (check_and_failover cfg env s w) as [s' w'].
    destruct H as [H|(c & sc & rec & pre & H & Hl & Hev)]; [left; exact H|].
    right. exists c, sc, rec, pre. auto.
  - intros s w. destruct (get_status cfg env s w) as [[r s'] w'] eqn:Hst.
    eapply Hstatus, Hst.
Qed.

End ActiveServer.

Lemma failed_switch_is_atomic_witness :
  let fetched := get_dns_record Example.env_write_rejected "example.com" "A" Example.w2 in
  let '(result, s', w') :=
    _switch_to_server Example.cfg1 Example.env_write_rejected "B" Example.s0 Example.w2 in
  (exists b, result = Ok b) /\
  (dns_reply Example.env_write_rejected (clock Example.w2) <> Served \/
   current_record Example.cfg1 Example.w2 = None ->
     fst fetched = None) /\
  (forall sc r,
     dns_reply Example.env_write_rejected (clock (snd fetched)) <> Served ->
     fst (update_dns_record Example.env_write_rejected (rec_id r) "example.com" (ip sc)
            "A" 300 (snd fetched)) = false) /\
  (fst fetched = None ->
     result = Ok false /\ s' = Example.s0 /\ puts_issued Example.w2 w' = 0%nat /\
     zone w' = zone Example.w2) /\
  (forall sc r,
     lookup_server "B" (servers Example.cfg1) = Some sc ->
     fst fetched = Some r ->
     fst (update_dns_record Example.env_write_rejected (rec_id r) "example.com" (ip sc)
            "A" 300 (snd fetched)) = false ->
     result = Ok false /\ s' = Example.s0 /\ puts_issued Example.w2 w' = 1%nat /\
     zone w' = zone Example.w2) /\
  (result = Ok false -> s' = Example.s0) /\
  (puts_issued Example.w2 w' <= 1)%nat.
Proof.
  exact (failed_switch_is_atomic Example.cfg1 Example.env_write_rejected "B"
           Example.s0 Example.w2).
Defined.

(** The store rejects the write: the switch reports failure, A stays
    active with the counts as they were, and the record still points at A. *)
Example rejected_write_changes_nothing :
  let '(result, s', w') :=
    _switch_to_server Example.cfg1 Example.env_write_rejected "B" Example.s0 Example.w2 in
  result = Ok false /\ s' = Example.s0 /\
  current_record Example.cfg1 w' = Some Example.record0 /\
  puts_issued Example.w2 w' = 1%nat.
Proof. repeat split; reflexivity. Qed.

Lemma fallback_is_first_minimum_witness :
  exists n, first_minimum (servers Example.cfg_tie) n /\
    forall s w, _get_highest_priority_server Example.cfg_tie s w = (Ok n, s, w).
Proof. exact (fallback_is_first_minimum Example.cfg_tie). Defined.

(** Two servers share priority 1: the fallback is B, configured before A. *)
Example fallback_tie_returns_first :
  _get_highest_priority_server Example.cfg_tie Example.s0 Example.w0 =
    (Ok "B", Example.s0, Example.w0).
Proof. reflexivity. Qed.

Lemma active_server_invariant_witness :
  let boot := DNSFailover Example.cfg Example.env_A_down Example.w0 in
  let cycle := check_and_failover Example.cfg Example.env_A_down
                 (snd (fst boot)) (snd boot) in
  exists n, current_active_server (fst cycle) = Some n /\ n ∈ names Example.cfg.
Proof.
  intros boot cycle.
  apply (proj1 (active_server_invariant Example.cfg Example.env_A_down)
           (fst cycle) (snd cycle)).
  apply (reach_cycle _ _ (snd (fst boot)) (snd boot)).
  - apply (reach_init _ _ Example.w0). reflexivity.
  - reflexivity.
Defined.

(** ** Further properties of the engine *)

(** *** What every operation preserves *)

Section Preservation.

Context (cfg : Config) (env : Env).

(** A property of the engine that survives every health check and every
    switch survives every method of the engine. *)
Variable P : Engine -> Prop.

Hypothesis check_preserves : forall n s w r s' w',
  _check_server_health cfg env n s w = (r, s', w') -> P s -> P s'.

Hypothesis switch_preserves : forall n s w r s' w',
  _switch_to_server cfg env n s w = (r, s', w') -> P s -> P s'.

Lemma scan_candidates_preserves l : forall s w r s' w',
  scan_candidates cfg env l s w = (r, s', w') -> P s -> P s'.
Proof.
  induction l as [|[n sc] l IH]; intros s w r s' w'; simpl.
  - intros [= <- <- <-]. auto.
  - unfold bind at 1, get_self at 1.
    destruct (bool_decide (Some n = current_active_server s)); [apply IH|].
    unfold bind at 1.
    destruct (_check_server_health cfg env n s w) as [[r1 s1] w1] eqn:Hcheck.
    intros Hrest HP. pose proof (check_preserves _ _ _ _ _ _ Hcheck HP) as HP1.
    destruct r1 as [[|]|x].
    + injection Hrest as <- <- <-. exact HP1.
    + eapply IH; eauto.
    + injection Hrest as <- <- <-. exact HP1.
Qed.

Lemma status_entries_preserves l : forall s w r s' w',
  status_entries cfg env l s w = (r, s', w') -> P s -> P s'.
Proof.
  induction l as [|[n sc] l IH]; intros s w r s' w'; simpl.
  - intros [= <- <- <-]. auto.
  - unfold bind at 1.
    destruct (_check_server_health cfg env n s w) as [[r1 s1] w1] eqn:Hcheck.
    intros Hrest HP. pose proof (check_preserves _ _ _ _ _ _ Hcheck HP) as HP1.
    destruct r1 as [h|x].
    + unfold bind at 1, get_count at 1 in Hrest.
      destruct (failure_counts s1 !! n) as [c|].
      * unfold bind at 1 in Hrest.
        destruct (status_entries cfg env l s1 w1) as [[r2 s2] w2] eqn:Hrec.
        pose proof (IH _ _ _ _ _ Hrec HP1) as HP2.
        destruct r2; injection Hrest as <- <- <-; exact HP2.
      * injection Hrest as <- <- <-. exact HP1.
    + injection Hrest as <- <- <-. exact HP1.
Qed.

Lemma get_status_preserves s w r s' w' :
  get_status cfg env s w = (r, s', w') -> P s -> P s'.
Proof.
  unfold get_status, bind, get_self, io, ret. simpl.
  destruct (status_entries cfg env (servers cfg) s w) as [[r1 s1] w1] eqn:Hrun.
  intros Hrest HP. pose proof (status_entries_preserves _ _ _ _ _ _ Hrun HP) as HP1.
  destruct r1; injection Hrest as <- <- <-; exact HP1.
Qed.

Lemma check_and_failover_preserves s w :
  P s -> P (fst (check_and_failover cfg env s w)).
Proof.
  intros HP. unfold check_and_failover, check_and_failover_body.
  unfold bind at 1, get_self at 1.
  destruct (current_active_server s) as [a|]; [|exact HP].
  destruct (negb (truthy (Some a))); [exact HP|].
  unfold bind at 1.
  destruct (_check_server_health cfg env a s w) as [[r1 s1] w1] eqn:Hcheck.
  pose proof (check_preserves _ _ _ _ _ _ Hcheck HP) as HP1.
  destruct r1 as [[|]|x]; try exact HP1.
  unfold bind at 1, get_count at 1.
  destruct (failure_counts s1 !! a) as [c|]; [|exact HP1].
  destruct (failure_threshold cfg <=? c); [|exact HP1].
  unfold bind at 1, _get_next_available_server.
  destruct (scan_candidates cfg env (sorted_by_priority (servers cfg)) s1 w1)
    as [[r2 s2] w2] eqn:Hscan.
  pose proof (scan_candidates_preserves _ _ _ _ _ _ Hscan HP1) as HP2.
  destruct r2 as [[n|]|x]; try exact HP2.
  destruct (truthy (Some n)); [|exact HP2].
  unfold bind at 1.
  destruct (_switch_to_server cfg env n s2 w2) as [[r3 s3] w3] eqn:Hswitch.
  pose proof (switch_preserves _ _ _ _ _ _ Hswitch HP2) as HP3.
  destruct r3; exact HP3.
Qed.

End Preservation.

(** *** The counters stay well formed *)

Section Counters.

Context (cfg : Config) (env : Env).

Lemma counts_wf_cover s : counts_wf cfg s -> counts_cover cfg s.
Proof. intros [Hdom _] n Hn. apply Hdom, Hn. Qed.

Lemma with_count_wf s n c :
  counts_wf cfg s -> n ∈ names cfg -> 0 <= c -> counts_wf cfg (with_count s n c).
Proof.
  intros [Hdom Hpos] Hn Hc. split.
  - intros m. simpl. rewrite lookup_insert. case_decide as Hm.
    + subst m. split; [intros _; exact Hn|eauto].
    + apply Hdom.
  - intros m d. simpl. rewrite lookup_insert. case_decide as Hm.
    + intros [= <-]. exact Hc.
    + apply Hpos.
Qed.

Lemma check_health_wf n s w r s' w' :
  _check_server_health cfg env n s w = (r, s', w') ->
  counts_wf cfg s -> counts_wf cfg s'.
Proof.
  unfold _check_server_health, server_config, bind, io, ret, raise, get_count, set_count.
  destruct (lookup_server n (servers cfg)) as [sc|] eqn:Hl; simpl.
  - pose proof (lookup_server_name _ _ _ Hl) as Hn.
    destruct (check_server_healthy_at cfg env sc w) as (e & He & ->).
    destruct (healthy_at cfg env (clock w) sc).
    + intros [= <- <- <-] Hwf. apply (with_count_wf s n 0); auto. lia.
    + destruct (failure_counts s !! n) as [c|] eqn:Hc; intros [= <- <- <-] Hwf; [|exact Hwf].
      apply (with_count_wf s n (c + 1)); auto.
      destruct Hwf as [_ Hpos]. specialize (Hpos n c Hc). lia.
  - intros [= <- <- <-]. auto.
Qed.

Lemma switch_wf n s w r s' w' :
  _switch_to_server cfg env n s w = (r, s', w') ->
  counts_wf cfg s -> counts_wf cfg s'.
Proof.
  intros Hrun Hwf.
  destruct (switch_outcome cfg env n s w r s' w' Hrun)
    as [[-> _]|(sc & rec & g & Hl & -> & _)]; [exact Hwf|].
  apply (with_count_wf s n 0 Hwf); [eapply lookup_server_name, Hl|lia].
Qed.

(** [__init__] gives every configured server the count 0 and creates no
    other counter. *)
Lemma initial_counts_lookup n :
  initial_counts cfg !! n = if decide (n ∈ names cfg) then Some 0 else None.
Proof.
  unfold initial_counts, names.
  assert (H : forall (l : list (string * ServerConfig)) (m : gmap string Z),
             foldl (fun m x => <[fst x := 0]> m) m l !! n =
               if decide (n ∈ map fst l) then Some 0 else m !! n).
  { induction l as [|x l IH]; intros m.
    - simpl. destruct (decide (n ∈ [])) as [Hin|_]; [inversion Hin|reflexivity].
    - change (foldl (fun m x => <[fst x := 0]> m) m (x :: l))
        with (foldl (fun m x => <[fst x := 0]> m) (<[fst x := 0]> m) l).
      rewrite IH. change (map fst (x :: l)) with (fst x :: map fst l).
      destruct (decide (n ∈ map fst l)) as [Hin|Hnot];
        destruct (decide (n ∈ fst x :: map fst l)) as [Hin'|Hnot']; try reflexivity.
      + exfalso. apply Hnot'. right. exact Hin.
      + apply elem_of_cons in Hin' as [->|Hin']; [apply lookup_insert_eq|contradiction].
      + apply lookup_insert_ne. intros Heq. apply Hnot'. rewrite <- Heq. left. }
  rewrite H. destruct (decide _); [reflexivity|apply lookup_empty].
Qed.

Lemma constructor_wf w r s w' :
  DNSFailover cfg env w = (r, s, w') -> counts_wf cfg s.
Proof.
  assert (Hinit : forall a, counts_wf cfg {| current_active_server := a;
                                            failure_counts := initial_counts cfg |}).
  { intros a. split; simpl.
    - intros n. rewrite initial_counts_lookup. destruct (decide (n ∈ names cfg)).
      + split; eauto.
      + split; [intros [? [=]]|contradiction].
    - intros n c. rewrite initial_counts_lookup.
      destruct (decide _); intros [= <-]. lia. }
  unfold DNSFailover, _determine_current_active_server, bind, io.
  rewrite get_dns_record_run.
  assert (Hfallback : forall v,
            default_to_highest_priority cfg
              {| current_active_server := None; failure_counts := initial_counts cfg |} v
              = (r, s, w') -> counts_wf cfg s).
  { intros v. unfold default_to_highest_priority, bind, get_self, set_active,
      _get_highest_priority_server, ret, raise. simpl.
    destruct (servers cfg) as [|x l]; intros [= <- <- <-]; apply Hinit. }
  destruct (fst (get_dns_record env (domain_name cfg) (record_type cfg) w)) as [rec|].
  - destruct (find_by_ip (rec_content rec) (servers cfg)) as [n|].
    + intros [= <- <- <-]. apply Hinit.
    + apply Hfallback.
  - apply Hfallback.
Qed.

(** What holds in every state the engine can be in. *)
Lemma reachable_inv s w :
  reachable cfg env s w ->
  (exists n, current_active_server s = Some n /\ n ∈ names cfg) /\ counts_wf cfg s.
Proof.
  induction 1 as [w s w' Hinit|s w s' w' _ [IHa IHc] Hcycle|s w r s' w' _ [IHa IHc] Hst
                 |s w w' _ IH].
  - split; [eapply constructor_active, Hinit|eapply constructor_wf, Hinit].
  - split.
    + pose proof (cycle_active cfg env s w) as H. rewrite Hcycle in H.
      destruct H as [H|(c & sc & _ & _ & H & Hl & _)].
      * rewrite H. exact IHa.
      * exists c. split; [exact H|]. eapply lookup_server_name, Hl.
    + replace s' with (fst (check_and_failover cfg env s w)) by (rewrite Hcycle; reflexivity).
      apply (check_and_failover_preserves cfg env (counts_wf cfg));
        [apply check_health_wf|apply switch_wf|exact IHc].
  - split.
    + destruct IHa as (n & Hn & Hin). exists n. split; [|exact Hin].
      apply (get_status_preserves cfg env (fun x => current_active_server x = Some n))
        with (s := s) (w := w) (r := r) (w' := w'); auto.
      intros m x v rx x' v' Hcheck Hx.
      destruct (check_health_frame cfg env m x v rx x' v' Hcheck) as (Hact & _).
      congruence.
    + eapply (get_status_preserves cfg env (counts_wf cfg)); eauto using check_health_wf.
  - exact IH.
Qed.

End Counters.

Section EngineLife.

Context (cfg : Config) (env : Env).

(** X1. The constructor gives every configured server the failure count 0
    and creates no other counter; and in every state the engine can reach
    by cycles and status requests there is a counter for exactly the
    configured servers, none of them negative. *)
Theorem counters_stay_well_formed :
  (forall w r s w' n,
     DNSFailover cfg env w = (r, s, w') ->
     failure_counts s !! n = if decide (n ∈ names cfg) then Some 0 else None) /\
  (forall s w, reachable cfg env s w -> counts_wf cfg s).
Proof.
  split.
  - intros w r s w' n.
    unfold DNSFailover, _determine_current_active_server, bind, io.
    rewrite get_dns_record_run.
    assert (Hfallback : forall v,
              default_to_highest_priority cfg
                {| current_active_server := None; failure_counts := initial_counts cfg |} v
                = (r, s, w') -> failure_counts s = initial_counts cfg).
    { intros v. unfold default_to_highest_priority, bind, get_self, set_active,
        _get_highest_priority_server, ret, raise. simpl.
      destruct (servers cfg) as [|x l]; intros [= <- <- <-]; reflexivity. }
    intros Hrun. rewrite <- initial_counts_lookup. f_equal. revert Hrun.
    destruct (fst (get_dns_record env (domain_name cfg) (record_type cfg) w)) as [rec|].
    + destruct (find_by_ip (rec_content rec) (servers cfg)) as [m|].
      * intros [= <- <- <-]. reflexivity.
      * apply Hfallback.
    + apply Hfallback.
  - intros s w Hreach. apply (reachable_inv cfg env s w Hreach).
Qed.

(** X2. On an engine in a reachable state (names unique, as in a
    dictionary) [get_status] never raises: it returns a status that names
    the active server, a configured one, and has one entry per configured
    server, in configuration order. *)
Theorem status_never_raises s w :
  reachable cfg env s w -> unique_names cfg ->
  exists st s' w' n,
    get_status cfg env s w = (Ok st, s', w') /\
    st_current_active_server st = Some n /\ n ∈ names cfg /\
    map fst (st_servers st) = names cfg.
Proof.
  intros Hreach Hnd.
  destruct (reachable_inv cfg env s w Hreach) as ((n & Hact & Hn) & Hwf).
  destruct (status_entries_run cfg env (servers cfg) s w)
    as (entries & s' & w' & Hrun & _ & _ & Hnames & _).
  { intros m sc Hin. apply lookup_server_unique; assumption. }
  { exact Hnd. }
  { apply counts_wf_cover, Hwf. }
  eexists _, s', w', n. split.
  { unfold get_status, bind, get_self, io, ret. simpl. rewrite Hrun. reflexivity. }
  simpl. auto.
Qed.

(** Consecutive cycles in which the active server probes healthy. *)
Lemma healthy_cycles (N : nat) : forall s w a sa,
  current_active_server s = Some a -> a <> "" ->
  lookup_server a (servers cfg) = Some sa ->
  (forall i, (i < N)%nat -> healthy_at cfg env (clock w + i) sa = true) ->
  exists w', probes_only N w w' /\
    run_cycles cfg env N s w = (if N is O then s else with_count s a 0, w').
Proof.
  induction N as [|N IH]; intros s w a sa Hact Ha Hl Hh.
  - exists w. split; [apply probes_only_refl|reflexivity].
  - assert (H0 : healthy_at cfg env (clock w) sa = true).
    { rewrite <- (Nat.add_0_r (clock w)). apply Hh. lia. }
    destruct (cycle_healthy cfg env s w a sa Hact Ha Hl H0) as (e & He & Hrun).
    destruct (IH (with_count s a 0) (tick e w) a sa) as (w' & Hw' & Hrest); auto.
    { intros i Hi. replace (clock (tick e w) + i)%nat with (clock w + S i)%nat
        by (simpl; lia). apply Hh. lia. }
    exists w'. split.
    + apply (probes_only_trans 1 N w (tick e w) w'); [apply probes_only_tick, He|exact Hw'].
    + simpl. rewrite Hrun, Hrest. destruct N; [reflexivity|].
      rewrite with_count_twice. reflexivity.
Qed.

(** X3. The active server is sticky: over any number of consecutive cycles
    in which it probes healthy it stays active, whatever the priorities and
    reachability of the other servers; the N cycles issue N requests in
    all, none of them to the DNS store, and no counter of another server
    changes. *)
Theorem healthy_active_is_kept (N : nat) s w a sa :
  current_active_server s = Some a -> a <> "" ->
  lookup_server a (servers cfg) = Some sa ->
  (forall i, (i < N)%nat -> healthy_at cfg env (clock w + i) sa = true) ->
  let '(s', w') := run_cycles cfg env N s w in
  current_active_server s' = Some a /\
  (forall n, n <> a -> failure_counts s' !! n = failure_counts s !! n) /\
  ((0 < N)%nat -> failure_counts s' !! a = Some 0) /\
  probes_only N w w' /\
  puts_issued w w' = 0%nat.
Proof.
  intros Hact Ha Hl Hh.
  destruct (healthy_cycles N s w a sa Hact Ha Hl Hh) as (w' & Hw' & ->).
  assert (Hputs : puts_issued w w' = 0%nat) by (eapply probes_only_no_puts, Hw').
  destruct N as [|N].
  - split; [exact Hact|]. split; [reflexivity|]. split; [lia|]. split; assumption.
  - split; [exact Hact|]. split.
    { intros n Hn. apply lookup_insert_ne. congruence. }
    split; [intros _; apply lookup_insert_eq|]. split; assumption.
Qed.

End EngineLife.

(** *** At and beyond the threshold *)

Section BeyondThreshold.

Context (cfg : Config) (env : Env).

Lemma first_healthy_all_unhealthy l t :
  (forall j n sn, l !! j = Some (n, sn) -> healthy_at cfg env (t + j) sn = false) ->
  first_healthy cfg env t l = None.
Proof.
  intros Hall. destruct (first_healthy cfg env t l) as [[c sc]|] eqn:Hf; [|reflexivity].
  destruct (first_healthy_some cfg env l t c sc Hf) as (k & Hk & Hh & _).
  rewrite (Hall k c sc Hk) in Hh. discriminate.
Qed.

(** An unhealthy probe of the active server adds one to its count, whether
    or not the cycle goes on to a failover. *)
Lemma unhealthy_cycle_count s w a sa c :
  unique_names cfg -> counts_cover cfg s ->
  current_active_server s = Some a -> a <> "" ->
  lookup_server a (servers cfg) = Some sa ->
  healthy_at cfg env (clock w) sa = false ->
  failure_counts s !! a = Some c ->
  failure_counts (fst (check_and_failover cfg env s w)) !! a = Some (c + 1).
Proof.
  intros Hnd Hcov Hact Ha Hl Hh Hc.
  destruct (Z.le_gt_cases (failure_threshold cfg) (c + 1)) as [Hthr|Hlt].
  - rewrite (cycle_tripped_counts cfg env s w a sa c Hnd Hcov Hact Ha Hl Hh Hc Hthr).
    rewrite record_probes_other by (apply active_not_candidate, Hact).
    apply lookup_insert_eq.
  - destruct (cycle_degraded cfg env s w a sa c Hact Ha Hl Hh Hc) as (e & _ & ->); [lia|].
    apply lookup_insert_eq.
Qed.

(** X4. When the threshold is reached and every candidate probes
    unhealthy, the cycle ends without contacting the DNS store: the active
    server stays active with its failure recorded, every candidate has been
    probed once and has its count raised by one, and the requests issued
    are exactly these probes. *)
Theorem no_candidate_no_switch s w a sa c :
  unique_names cfg -> counts_cover cfg s ->
  current_active_server s = Some a -> a <> "" ->
  lookup_server a (servers cfg) = Some sa ->
  healthy_at cfg env (clock w) sa = false ->
  failure_counts s !! a = Some c ->
  failure_threshold cfg <= c + 1 ->
  (forall j n sn, candidates cfg s !! j = Some (n, sn) ->
                  healthy_at cfg env (S (clock w) + j) sn = false) ->
  let '(s', w') := check_and_failover cfg env s w in
  current_active_server s' = Some a /\
  failure_counts s' !! a = Some (c + 1) /\
  (forall j n sn, candidates cfg s !! j = Some (n, sn) ->
     failure_counts s' !! n = Some (default 0 (failure_counts s !! n) + 1)) /\
  probes_only (S (length (candidates cfg s))) w w' /\
  puts_issued w w' = 0%nat.
Proof.
  intros Hnd Hcov Hact Ha Hl Hh Hc Hthr Hall.
  pose proof (first_healthy_all_unhealthy _ _ Hall) as Hnone.
  destruct (first_healthy_none cfg env _ _ Hnone) as [_ Hmade].
  destruct (cycle_tripped cfg env s w a sa c Hnd Hcov Hact Ha Hl Hh Hc Hthr)
    as (w2 & Hw2 & ->).
  rewrite Hnone. rewrite Hmade in Hw2. simpl.
  split; [reflexivity|]. split.
  { rewrite record_probes_other by (apply active_not_candidate, Hact).
    apply lookup_insert_eq. }
  split.
  { intros j n sn Hj.
    destruct (record_probes_lookup cfg env (candidates cfg s) (S (clock w))
                (<[a := c + 1]> (failure_counts s)) j n sn
                (candidates_NoDup cfg s Hnd) Hj) as [Hlt _].
    rewrite Hmade, (Hall j n sn Hj) in Hlt.
    rewrite Hlt by (eapply lookup_lt_Some, Hj).
    rewrite lookup_insert_ne; [reflexivity|].
    intros ->. eapply candidate_not_active; [exact Hact| |reflexivity].
    eapply list_elem_of_lookup_2, Hj. }
  split; [exact Hw2|]. eapply probes_only_no_puts, Hw2.
Qed.


(** X6. A confirmed switch wipes the new active server's failure history:
    if the very next cycle finds it unhealthy, its count is 1, whatever it
    was before the switch. *)
Theorem count_restarts_after_switch c sc s w s1 w1 :
  unique_names cfg -> counts_cover cfg s -> c <> "" ->
  lookup_server c (servers cfg) = Some sc ->
  _switch_to_server cfg env c s w = (Ok true, s1, w1) ->
  current_active_server s1 = Some c /\
  failure_counts s1 !! c = Some 0 /\
  forall w2, healthy_at cfg env (clock w2) sc = false ->
             failure_counts (fst (check_and_failover cfg env s1 w2)) !! c = Some 1.
Proof.
  intros Hnd Hcov Hc Hl Hrun.
  assert (Hs1 : s1 = switched s c).
  { pose proof (switch_cases cfg env c s w) as H. cbv zeta in H. rewrite Hl in H.
    destruct (fst (get_dns_record env (domain_name cfg) (record_type cfg) w));
      [|rewrite H in Hrun; discriminate].
    match type of H with (if ?b then _ else _) => destruct b end;
      rewrite H in Hrun; [|discriminate].
    injection Hrun as <- _. reflexivity. }
  subst s1. split; [reflexivity|]. split; [apply lookup_insert_eq|].
  intros w2 Hh.
  apply (unhealthy_cycle_count (switched s c) w2 c sc 0); auto.
  - intros n Hn. simpl. rewrite lookup_insert. case_decide; [eauto|]. apply Hcov, Hn.
  - apply lookup_insert_eq.
Qed.

End BeyondThreshold.

(** *** Status requests between cycles *)

Section StatusAndCycles.

Context (cfg : Config) (env : Env).


(** X9. With a single configured server the engine never fails over: in
    every reachable state a cycle leaves that server active and issues no
    request to the DNS store. *)
Theorem single_server_never_switches n sc s w :
  servers cfg = [(n, sc)] ->
  reachable cfg env s w ->
  let '(s', w') := check_and_failover cfg env s w in
  current_active_server s' = Some n /\
  (exists k, probes_only k w w') /\
  puts_issued w w' = 0%nat.
Proof.
  intros Hs Hreach.
  destruct (reachable_inv cfg env s w Hreach) as ((m & Hact & Hm) & _).
  unfold names in Hm. rewrite Hs in Hm. simpl in Hm.
  apply list_elem_of_singleton in Hm. subst m.
  assert (Hgoal : let '(s', w') := check_and_failover cfg env s w in
                  current_active_server s' = Some n /\ exists k, probes_only k w w').
  { unfold check_and_failover, check_and_failover_body.
    unfold bind at 1, get_self at 1. rewrite Hact.
    destruct (negb (truthy (Some n))).
    { split; [exact Hact|]. exists 0%nat. apply probes_only_refl. }
    unfold bind at 1.
    destruct (_check_server_health cfg env n s w) as [[r1 s1] w1] eqn:Hcheck.
    destruct (check_health_frame cfg env n s w r1 s1 w1 Hcheck) as (Hact1 & _ & k1 & Hk1).
    rewrite Hact in Hact1.
    destruct r1 as [[|]|x]; try (split; [exact Hact1|eauto]).
    unfold bind at 1, get_count at 1.
    destruct (failure_counts s1 !! n) as [c|]; [|split; [exact Hact1|eauto]].
    destruct (failure_threshold cfg <=? c); [|split; [exact Hact1|eauto]].
    unfold bind at 1, _get_next_available_server. rewrite Hs. simpl.
    unfold bind at 1, get_self at 1. rewrite Hact1.
    rewrite bool_decide_eq_true_2 by reflexivity.
    split; [exact Hact1|eauto]. }
  destruct (check_and_failover cfg env s w) as [s' w'].
  destruct Hgoal as (Hact' & k & Hk).
  split; [exact Hact'|]. split; [eauto|]. eapply probes_only_no_puts, Hk.
Qed.

End StatusAndCycles.

(** *** The order in which candidates are probed *)

Section CandidateOrder.

Context (cfg : Config).

Implicit Types (l : list (string * ServerConfig)) (x y : string * ServerConfig).





End CandidateOrder.

(** Two servers share priority 1 and the active one fails: the candidate
    configured first (B) is probed first and chosen, although A is
    reachable too. *)
Example tie_between_candidates :
  let s := {| current_active_server := Some "C";
              failure_counts := initial_counts Example.cfg_tie |} in
  fst (fst (_get_next_available_server Example.cfg_tie Example.env_all_up s Example.w0))
    = Ok (Some "B").
Proof. reflexivity. Qed.

(** *** Reading and writing the record *)

Section RecordRoundTrip.

Context (env : Env).

Lemma update_dns_record_run rid name addr ty t w :
  let req := {| rec_id := rid; rec_name := name; rec_type := ty;
                rec_content := addr; rec_ttl := t |} in
  let '(ok, w') := update_dns_record env rid name addr ty t w in
  clock w' = S (clock w) /\
  trace w' = trace w ++ [EvDnsPut req ok] /\
  zone w' = (if ok then overwrite req (zone w) else zone w) /\
  (ok = true -> dns_reply env (clock w) = Served /\ has_record rid (zone w) = true).
Proof.
  unfold update_dns_record. simpl.
  split; [reflexivity|]. split; [reflexivity|]. split; [reflexivity|].
  destruct (dns_reply env (clock w)); try discriminate. auto.
Qed.


End RecordRoundTrip.

(** *** The update test of test.py *)

Section UpdateTest.

Context (cfg : Config) (env : Env).

Lemma find_other_ip_some current_ip l t :
  find_other_ip current_ip l = Some t ->
  t <> current_ip /\ exists n sc, (n, sc) ∈ l /\ ip sc = t.
Proof.
  induction l as [|[n sc] l IH]; simpl; [discriminate|].
  destruct (String.eqb_spec (ip sc) current_ip) as [He|Hne]; simpl.
  - intros H. destruct (IH H) as (Ht & m & sm & Hin & Hip).
    split; [exact Ht|]. exists m, sm. split; [right; exact Hin|exact Hip].
  - intros [= <-]. split; [exact Hne|]. exists n, sc. split; [left|reflexivity].
Qed.

(** The record as [test_dns_update] writes it back. *)
Lemma test_dns_update_cases dry_run w :
  let fetched := get_dns_record env (domain_name cfg) (record_type cfg) w in
  match fst fetched with
  | None => test_dns_update cfg env dry_run w = (false, snd fetched)
  | Some r =>
      match find_other_ip (rec_content r) (servers cfg) with
      | None => test_dns_update cfg env dry_run w = (true, snd fetched)
      | Some t =>
          if negb (truthy (Some t)) || dry_run
          then test_dns_update cfg env dry_run w = (true, snd fetched)
          else
            let first := update_dns_record env (rec_id r) (domain_name cfg) t
                           (record_type cfg) (ttl cfg) (snd fetched) in
            let second := update_dns_record env (rec_id r) (domain_name cfg)
                            (rec_content r) (record_type cfg) (ttl cfg) (snd first) in
            if fst first
            then test_dns_update cfg env dry_run w = (fst second, snd second)
            else test_dns_update cfg env dry_run w = (false, snd first)
      end
  end.
Proof.
  intros fetched. unfold test_dns_update. rewrite get_dns_record_run. fold fetched.
  assert (Hsnd : snd fetched =
                   tick (EvDnsGet (domain_name cfg) (record_type cfg) (fst fetched)) w)
    by reflexivity.
  rewrite Hsnd. clear Hsnd. generalize (fst fetched). clear fetched.
  intros [r|]; [|reflexivity].
  destruct (find_other_ip (rec_content r) (servers cfg)) as [t|]; [|reflexivity].
  destruct (negb (truthy (Some t))); [reflexivity|].
  destruct dry_run; [reflexivity|]. cbv zeta. simpl orb. cbv iota.
  destruct (update_dns_record env (rec_id r) (domain_name cfg) t (record_type cfg)
              (ttl cfg) _) as [ok1 w2] eqn:H1.
  cbn [fst snd].
  destruct ok1; [|reflexivity].
  destruct (update_dns_record env (rec_id r) (domain_name cfg) (rec_content r)
              (record_type cfg) (ttl cfg) w2) as [ok2 w3]. reflexivity.
Qed.

(** X10. Whenever [test_dns_update] reports success the record's content
    is what it was before the test.  Either nothing was written (always so
    in a dry run, and when no configured server has another address), or
    the test ran for real, issued exactly two writes, and the record now
    carries the original content again with the configured ttl. *)
Theorem test_dns_update_success dry_run w :
  let '(b, w') := test_dns_update cfg env dry_run w in
  b = true ->
  exists r,
    current_record cfg w = Some r /\
    ((current_record cfg w' = Some r /\ zone w' = zone w /\ puts_issued w w' = 0%nat) \/
     (dry_run = false /\ current_record cfg w' = Some (restored cfg r) /\
      puts_issued w w' = 2%nat)).
Proof.
  pose proof (test_dns_update_cases dry_run w) as H. cbv zeta in H.
  destruct (fst (get_dns_record env (domain_name cfg) (record_type cfg) w))
    as [r|] eqn:Hf; [|rewrite H; discriminate].
  destruct (get_dns_record_some env _ _ _ _ Hf) as (_ & Hhead & Hname & Hty & Hin).
  assert (Hquiet : current_record cfg
                     (snd (get_dns_record env (domain_name cfg) (record_type cfg) w))
                   = Some r /\
                   zone (snd (get_dns_record env (domain_name cfg) (record_type cfg) w))
                   = zone w /\
                   puts_issued w
                     (snd (get_dns_record env (domain_name cfg) (record_type cfg) w))
                   = 0%nat).
  { split; [exact Hhead|]. split; [reflexivity|].
    unfold puts_issued. rewrite get_dns_record_run. simpl snd.
    rewrite new_events_tick. reflexivity. }
  destruct (find_other_ip (rec_content r) (servers cfg)) as [t|];
    [|rewrite H; intros _; exists r; split; [exact Hhead|left; exact Hquiet]].
  destruct (negb (truthy (Some t)) || dry_run) eqn:Hmode;
    [rewrite H; intros _; exists r; split; [exact Hhead|left; exact Hquiet]|].
  apply orb_false_iff in Hmode as [_ Hdry].
  set (fetched := get_dns_record env (domain_name cfg) (record_type cfg) w) in *.
  set (first := update_dns_record env (rec_id r) (domain_name cfg) t
                  (record_type cfg) (ttl cfg) (snd fetched)) in *.
  set (second := update_dns_record env (rec_id r) (domain_name cfg) (rec_content r)
                   (record_type cfg) (ttl cfg) (snd first)) in *.
  pose proof (update_dns_record_run env (rec_id r) (domain_name cfg) t
                (record_type cfg) (ttl cfg) (snd fetched)) as H1.
  pose proof (update_dns_record_run env (rec_id r) (domain_name cfg) (rec_content r)
                (record_type cfg) (ttl cfg) (snd first)) as H2.
  cbv zeta in H1, H2. fold first in H1. fold second in H2.
  destruct first as [ok1 w2]. destruct second as [ok2 w3]. cbn [fst snd] in *.
  destruct H1 as (_ & Ht1 & Hz1 & _). destruct H2 as (_ & Ht2 & Hz2 & _).
  destruct ok1; rewrite H; [|discriminate].
  intros ->. exists r. split; [exact Hhead|]. right. split; [exact Hdry|]. split.
  - unfold current_record. rewrite Hz2, Hz1.
    apply (overwrite_current _ _ (restored cfg r)
             {| rec_id := rec_id r; rec_name := domain_name cfg;
                rec_type := record_type cfg; rec_content := t; rec_ttl := ttl cfg |});
      auto.
    apply (overwrite_current _ _ _ r); auto.
  - unfold puts_issued. rewrite (new_events_app w w3
      [EvDnsGet (domain_name cfg) (record_type cfg) (Some r);
       EvDnsPut {| rec_id := rec_id r; rec_name := domain_name cfg;
                   rec_type := record_type cfg; rec_content := t;
                   rec_ttl := ttl cfg |} true;
       EvDnsPut (restored cfg r) true]); [reflexivity|].
    rewrite Ht2, Ht1. unfold fetched. rewrite get_dns_record_run. simpl.
    rewrite <- !app_assoc. simpl.
    unfold fetched, get_dns_record in Hf. simpl in Hf. rewrite Hf. reflexivity.
Qed.

(** X11. When the real test moves the record to the test address and the
    write that should restore it is not confirmed, [test_dns_update]
    reports failure and leaves the record pointing at the test address, an
    address of a configured server other than the original one. *)
Theorem test_dns_update_failed_restore w r t :
  current_record cfg w = Some r ->
  find_other_ip (rec_content r) (servers cfg) = Some t -> t <> "" ->
  dns_reply env (clock w) = Served ->
  dns_reply env (S (clock w)) = Served ->
  dns_reply env (S (S (clock w))) <> Served ->
  let '(b, w') := test_dns_update cfg env false w in
  b = false /\
  t <> rec_content r /\
  (exists n sc, (n, sc) ∈ servers cfg /\ ip sc = t) /\
  (exists r', current_record cfg w' = Some r' /\ rec_content r' = t) /\
  puts_issued w w' = 2%nat.
Proof.
  intros Hr Hfind Ht Hd0 Hd1 Hd2.
  pose proof (test_dns_update_cases false w) as H. cbv zeta in H.
  assert (Hf : fst (get_dns_record env (domain_name cfg) (record_type cfg) w) = Some r).
  { unfold get_dns_record; simpl. rewrite Hd0. exact Hr. }
  destruct (get_dns_record_some env _ _ _ _ Hf) as (_ & Hhead & _ & _ & Hin).
  rewrite Hf, Hfind, (truthy_name t Ht) in H. simpl orb in H. cbv iota in H.
  destruct (find_other_ip_some _ _ _ Hfind) as (Hne & Hsrv).
  set (fetched := get_dns_record env (domain_name cfg) (record_type cfg) w) in *.
  set (first := update_dns_record env (rec_id r) (domain_name cfg) t
                  (record_type cfg) (ttl cfg) (snd fetched)) in *.
  set (second := update_dns_record env (rec_id r) (domain_name cfg) (rec_content r)
                   (record_type cfg) (ttl cfg) (snd first)) in *.
  pose proof (update_dns_record_run env (rec_id r) (domain_name cfg) t
                (record_type cfg) (ttl cfg) (snd fetched)) as H1.
  pose proof (update_dns_record_run env (rec_id r) (domain_name cfg) (rec_content r)
                (record_type cfg) (ttl cfg) (snd first)) as H2.
  cbv zeta in H1, H2. fold first in H1. fold second in H2.
  assert (Hok1 : fst first = true).
  { unfold first, update_dns_record; simpl. rewrite Hd1. apply has_record_elem, Hin. }
  destruct first as [ok1 w2]. cbn [fst snd] in *. subst ok1.
  destruct H1 as (Hc1 & Ht1 & Hz1 & _).
  assert (Hok2 : fst second = false).
  { unfold second, update_dns_record; simpl. rewrite Hc1. simpl.
    destruct (dns_reply env (S (S (clock w)))); congruence. }
  destruct second as [ok2 w3]. cbn [fst snd] in *. subst ok2.
  destruct H2 as (_ & Ht2 & Hz2 & _).
  rewrite H. split; [reflexivity|]. split; [exact Hne|]. split; [exact Hsrv|]. split.
  - eexists. split.
    + unfold current_record. rewrite Hz2, Hz1.
      apply (overwrite_current _ _ _ r); auto.
    + reflexivity.
  - unfold puts_issued. rewrite (new_events_app w w3
      [EvDnsGet (domain_name cfg) (record_type cfg) (Some r);
       EvDnsPut {| rec_id := rec_id r; rec_name := domain_name cfg;
                   rec_type := record_type cfg; rec_content := t;
                   rec_ttl := ttl cfg |} true;
       EvDnsPut (restored cfg r) false]); [reflexivity|].
    rewrite Ht2, Ht1. unfold fetched. rewrite get_dns_record_run. simpl.
    rewrite <- !app_assoc. simpl.
    unfold fetched, get_dns_record in Hf. simpl in Hf. rewrite Hf. reflexivity.
Qed.

End UpdateTest.

(** *** The command line of main.py *)

Section CommandLine.

Context (cfg : Config) (env : Env).

Lemma no_writes_refl w : no_writes w w.
Proof. split; [reflexivity|]. exists []. rewrite app_nil_r. auto. Qed.








End CommandLine.

(** *** The further properties on the concrete deployment *)

Lemma counters_stay_well_formed_witness :
  let boot := DNSFailover Example.cfg Example.env_A_down Example.w0 in
  counts_wf Example.cfg
    (fst (check_and_failover Example.cfg Example.env_A_down (snd (fst boot)) (snd boot))).
Proof.
  intros boot.
  apply (proj2 (counters_stay_well_formed Example.cfg Example.env_A_down)
           _ (snd (check_and_failover Example.cfg Example.env_A_down
                     (snd (fst boot)) (snd boot)))).
  apply (reach_cycle _ _ (snd (fst boot)) (snd boot)).
  - apply (reach_init _ _ Example.w0). reflexivity.
  - reflexivity.
Defined.

Lemma status_never_raises_witness :
  let boot := DNSFailover Example.cfg Example.env_A_down Example.w0 in
  exists st s' w' n,
    get_status Example.cfg Example.env_A_down (snd (fst boot)) (snd boot) = (Ok st, s', w') /\
    st_current_active_server st = Some n /\ n ∈ names Example.cfg /\
    map fst (st_servers st) = names Example.cfg.
Proof.
  intros boot.
  apply (status_never_raises Example.cfg Example.env_A_down (snd (fst boot)) (snd boot)).
  - apply (reach_init _ _ Example.w0). reflexivity.
  - exact example_unique_names.
Defined.

Lemma healthy_active_is_kept_witness :
  let '(s', w') := run_cycles Example.cfg Example.env_all_up 3 Example.s0 Example.w0 in
  current_active_server s' = Some "A" /\
  (forall n, n <> "A" -> failure_counts s' !! n = failure_counts Example.s0 !! n) /\
  ((0 < 3)%nat -> failure_counts s' !! "A" = Some 0) /\
  probes_only 3 Example.w0 w' /\
  puts_issued Example.w0 w' = 0%nat.
Proof.
  apply (healthy_active_is_kept Example.cfg Example.env_all_up 3 Example.s0 Example.w0
           "A" Example.srvA).
  - reflexivity.
  - discriminate.
  - reflexivity.
  - intros i _. reflexivity.
Defined.

Lemma no_candidate_no_switch_witness :
  let '(s', w') := check_and_failover Example.cfg1 Example.env_all_down
                     Example.s0 Example.w0 in
  current_active_server s' = Some "A" /\
  failure_counts s' !! "A" = Some (0 + 1) /\
  (forall j n sn, candidates Example.cfg1 Example.s0 !! j = Some (n, sn) ->
     failure_counts s' !! n = Some (default 0 (failure_counts Example.s0 !! n) + 1)) /\
  probes_only (S (length (candidates Example.cfg1 Example.s0))) Example.w0 w' /\
  puts_issued Example.w0 w' = 0%nat.
Proof.
  apply (no_candidate_no_switch Example.cfg1 Example.env_all_down Example.s0 Example.w0
           "A" Example.srvA 0).
  - exact example_unique_names.
  - exact example_counts_cover.
  - reflexivity.
  - discriminate.
  - reflexivity.
  - reflexivity.
  - reflexivity.
  - reflexivity.
  - intros j n sn _. reflexivity.
Defined.


Lemma count_restarts_after_switch_witness :
  let s1 := switched Example.s0 "B" in
  current_active_server s1 = Some "B" /\
  failure_counts s1 !! "B" = Some 0 /\
  forall w2, healthy_at Example.cfg Example.env_cascade (clock w2) Example.srvB = false ->
             failure_counts
               (fst (check_and_failover Example.cfg Example.env_cascade s1 w2)) !! "B"
             = Some 1.
Proof.
  intros s1.
  apply (count_restarts_after_switch Example.cfg Example.env_cascade "B" Example.srvB
           Example.s0 Example.w0 s1
           (snd (_switch_to_server Example.cfg Example.env_cascade "B"
                   Example.s0 Example.w0))).
  - exact example_unique_names.
  - exact example_counts_cover.
  - discriminate.
  - reflexivity.
  - reflexivity.
Defined.

(** In [env_cascade] B has stopped answering by the time of [w6], so the
    hypothesis of the property above is met there. *)
Example count_restarts_after_switch_at_w6 :
  healthy_at Example.cfg Example.env_cascade (clock Example.w6) Example.srvB = false /\
  failure_counts
    (fst (check_and_failover Example.cfg Example.env_cascade
            (switched Example.s0 "B") Example.w6)) !! "B" = Some 1.
Proof. split; reflexivity. Qed.


Lemma single_server_never_switches_witness :
  let boot := DNSFailover Example.cfg_single Example.env_all_down Example.w0 in
  let '(s', w') := check_and_failover Example.cfg_single Example.env_all_down
                     (snd (fst boot)) (snd boot) in
  current_active_server s' = Some "A" /\
  (exists k, probes_only k (snd boot) w') /\
  puts_issued (snd boot) w' = 0%nat.
Proof.
  intros boot.
  apply (single_server_never_switches Example.cfg_single Example.env_all_down
           "A" Example.srvA (snd (fst boot)) (snd boot)).
  - reflexivity.
  - apply (reach_init _ _ Example.w0). reflexivity.
Defined.


Lemma test_dns_update_success_witness :
  exists r,
    current_record Example.cfg Example.w0 = Some r /\
    ((current_record Example.cfg
        (snd (test_dns_update Example.cfg Example.env_all_up false Example.w0)) = Some r /\
      zone (snd (test_dns_update Example.cfg Example.env_all_up false Example.w0))
        = zone Example.w0 /\
      puts_issued Example.w0
        (snd (test_dns_update Example.cfg Example.env_all_up false Example.w0)) = 0%nat) \/
     (false = false /\
      current_record Example.cfg
        (snd (test_dns_update Example.cfg Example.env_all_up false Example.w0))
        = Some (restored Example.cfg r) /\
      puts_issued Example.w0
        (snd (test_dns_update Example.cfg Example.env_all_up false Example.w0)) = 2%nat)).
Proof.
  exact (test_dns_update_success Example.cfg Example.env_all_up false Example.w0 eq_refl).
Defined.

Lemma test_dns_update_failed_restore_witness :
  let '(b, w') := test_dns_update Example.cfg Example.env_write_rejected false Example.w1 in
  b = false /\
  "10.0.0.2" <> rec_content Example.record0 /\
  (exists n sc, (n, sc) ∈ servers Example.cfg /\ ip sc = "10.0.0.2") /\
  (exists r', current_record Example.cfg w' = Some r' /\ rec_content r' = "10.0.0.2") /\
  puts_issued Example.w1 w' = 2%nat.
Proof.
  apply (test_dns_update_failed_restore Example.cfg Example.env_write_rejected
           Example.w1 Example.record0 "10.0.0.2").
  - reflexivity.
  - reflexivity.
  - discriminate.
  - reflexivity.
  - reflexivity.
  - discriminate.
Defined.


(** With threshold 1 the [--test] mode does write: the single check it
    runs already fails over from A to B. *)
Example test_mode_can_fail_over :
  match test_or_status_mode Example.cfg1 Example.env_A_down true Example.w0 with
  | Some (_, s', w') =>
      current_active_server s' = Some "B" /\ puts_issued Example.w0 w' = 1%nat
  | None => False
  end.
Proof. split; reflexivity. Qed.

(** *** Missing keys, empty configuration, and the cost of a cycle *)

Section Edges.

Context (cfg : Config) (env : Env).

(** X14. A server name that is not configured is a missing key: the
    health check raises [KeyError] before any probe; the switch executor
    catches it and returns false without even reading the DNS record; and
    a cycle of an engine whose active server is not configured changes
    nothing and issues no request. *)
Theorem unknown_server_is_missing_key n s w :
  lookup_server n (servers cfg) = None ->
  _check_server_health cfg env n s w = (Raise (KeyError n), s, w) /\
  _switch_to_server cfg env n s w = (Ok false, s, w) /\
  (current_active_server s = Some n -> check_and_failover cfg env s w = (s, w)).
Proof.
  intros Hl.
  assert (Hcheck : _check_server_health cfg env n s w = (Raise (KeyError n), s, w)).
  { unfold _check_server_health, server_config, bind, raise. rewrite Hl. reflexivity. }
  split; [exact Hcheck|]. split.
  - pose proof (switch_cases cfg env n s w) as H. cbv zeta in H. rewrite Hl in H. exact H.
  - intros Hact. unfold check_and_failover, check_and_failover_body.
    unfold bind at 1, get_self at 1. rewrite Hact.
    destruct (negb (truthy (Some n))); [reflexivity|].
    unfold bind at 1. rewrite Hcheck. reflexivity.
Qed.

(** X15. With no server configured the constructor raises (the minimum of
    an empty collection) after its single read of the DNS record, so
    [initialize_failover] reports failure and the [--test] and [--status]
    modes exit before any check or status. *)
Theorem empty_configuration_is_refused w :
  servers cfg = [] ->
  (exists s, DNSFailover cfg env w =
               (Raise ValueError, s,
                snd (get_dns_record env (domain_name cfg) (record_type cfg) w))) /\
  fst (initialize_failover cfg env w) = None /\
  (forall test, test_or_status_mode cfg env test w = None).
Proof.
  intros Hs.
  assert (Hrun : DNSFailover cfg env w =
            (Raise ValueError,
             {| current_active_server := None; failure_counts := initial_counts cfg |},
             snd (get_dns_record env (domain_name cfg) (record_type cfg) w))).
  { unfold DNSFailover, _determine_current_active_server, bind, io.
    rewrite get_dns_record_run. cbn [fst snd].
    assert (Hfallback : forall v,
              default_to_highest_priority cfg
                {| current_active_server := None; failure_counts := initial_counts cfg |} v
              = (Raise ValueError,
                 {| current_active_server := None; failure_counts := initial_counts cfg |},
                 v)).
    { intros v. unfold default_to_highest_priority, bind, get_self,
        _get_highest_priority_server, raise. simpl. rewrite Hs. reflexivity. }
    destruct (fst (get_dns_record env (domain_name cfg) (record_type cfg) w)) as [rec|];
      [|apply Hfallback].
    rewrite Hs. simpl. apply Hfallback. }
  split; [eauto|]. split.
  - unfold initialize_failover. rewrite Hrun. reflexivity.
  - intros test. unfold test_or_status_mode, initialize_failover. rewrite Hrun. reflexivity.
Qed.

Lemma check_health_clock n s w r s' w' :
  _check_server_health cfg env n s w = (r, s', w') ->
  (clock w' <= S (clock w))%nat /\
  exists evs, trace w' = trace w ++ evs /\ List.filter is_put evs = [].
Proof.
  intros Hrun.
  destruct (check_health_frame cfg env n s w r s' w' Hrun) as (_ & _ & k & Hk).
  assert (Hk1 : (k <= 1)%nat).
  { revert Hrun. destruct Hk as (Hclock & _).
    unfold _check_server_health, server_config, bind, io, ret, raise, get_count, set_count.
    destruct (lookup_server n (servers cfg)) as [sc|]; simpl.
    - destruct (check_server_healthy_at cfg env sc w) as (e & He & ->).
      destruct (healthy_at cfg env (clock w) sc);
        [|destruct (failure_counts s !! n)]; intros [= _ _ <-]; simpl in Hclock; lia.
    - intros [= _ _ <-]. lia. }
  destruct Hk as (Hclock & _ & evs & _ & Hquiet & Htrace).
  split; [lia|]. exists evs. split; [exact Htrace|].
  clear -Hquiet. induction Hquiet as [|e evs He _ IH]; [reflexivity|].
  simpl. destruct e; simpl in *; try discriminate; exact IH.
Qed.

Lemma scan_candidates_clock l : forall s w r s' w',
  scan_candidates cfg env l s w = (r, s', w') ->
  (clock w' <= clock w + length l)%nat /\
  exists evs, trace w' = trace w ++ evs /\ List.filter is_put evs = [].
Proof.
  induction l as [|[n sc] l IH]; intros s w r s' w'; simpl scan_candidates.
  - intros [= _ _ <-]. split; [simpl; lia|]. exists []. rewrite app_nil_r. auto.
  - unfold bind at 1, get_self at 1.
    destruct (bool_decide (Some n = current_active_server s)).
    { intros Hrest. destruct (IH _ _ _ _ _ Hrest) as (Hc & evs & Ht & Hf).
      split; [simpl; lia|eauto]. }
    unfold bind at 1.
    destruct (_check_server_health cfg env n s w) as [[r1 s1] w1] eqn:Hcheck.
    destruct (check_health_clock n s w r1 s1 w1 Hcheck) as (Hc1 & e1 & Ht1 & Hf1).
    destruct r1 as [[|]|x].
    + intros [= _ _ <-]. split; [simpl; lia|eauto].
    + intros Hrest. destruct (IH _ _ _ _ _ Hrest) as (Hc2 & e2 & Ht2 & Hf2).
      split; [simpl; lia|]. exists (e1 ++ e2). rewrite Ht2, Ht1, app_assoc.
      split; [reflexivity|]. rewrite List.filter_app, Hf1, Hf2. reflexivity.
    + intros [= _ _ <-]. split; [simpl; lia|eauto].
Qed.

Lemma switch_clock n s w :
  let w' := snd (_switch_to_server cfg env n s w) in
  (clock w' <= clock w + 2)%nat /\
  exists evs, trace w' = trace w ++ evs /\ (length (List.filter is_put evs) <= 1)%nat.
Proof.
  pose proof (switch_cases cfg env n s w) as H. cbv zeta in H.
  destruct (lookup_server n (servers cfg)) as [sc|].
  - destruct (fst (get_dns_record env (domain_name cfg) (record_type cfg) w)) as [rec|].
    + match type of H with (if fst ?u then _ else _) => set (written := u) in * end.
      assert (Hw : clock (snd written) = (clock w + 2)%nat /\
                   exists p, trace (snd written) =
                     trace w ++ [EvDnsGet (domain_name cfg) (record_type cfg)
                                   (fst (get_dns_record env (domain_name cfg)
                                           (record_type cfg) w)); p] /\
                     is_put p = true).
      { unfold written. simpl. split; [lia|]. eexists.
        rewrite <- app_assoc. simpl. split; reflexivity. }
      destruct Hw as (Hc & p & Ht & Hp).
      destruct (fst written); rewrite H; simpl; (split; [lia|]);
        eexists; (split; [exact Ht|]); simpl; rewrite Hp; simpl; lia.
    + rewrite H. simpl. split; [lia|]. eexists. split; [reflexivity|]. simpl. lia.
  - rewrite H. simpl. split; [lia|]. exists []. rewrite app_nil_r. simpl. split; [auto|lia].
Qed.

(** X16. The cost of a cycle is bounded: whatever the state and the
    world, one [check_and_failover] issues at most as many requests as
    there are configured servers plus three (the probe of the active
    server, at most one probe per item of the configuration, one read and
    one write), and at most one of them is a write to the DNS store. *)
Theorem cycle_cost_is_bounded s w :
  let '(s', w') := check_and_failover cfg env s w in
  (clock w' <= clock w + length (servers cfg) + 3)%nat /\
  (puts_issued w w' <= 1)%nat.
Proof.
  assert (Hgoal : let '(s', w') := check_and_failover cfg env s w in
            (clock w' <= clock w + length (servers cfg) + 3)%nat /\
            exists evs, trace w' = trace w ++ evs /\
                        (length (List.filter is_put evs) <= 1)%nat).
  { assert (Hnil : forall v : World,
              (clock v <= clock v + length (servers cfg) + 3)%nat /\
              exists evs, trace v = trace v ++ evs /\
                          (length (List.filter is_put evs) <= 1)%nat).
    { intros v. split; [lia|]. exists []. rewrite app_nil_r. simpl. split; [auto|lia]. }
    unfold check_and_failover, check_and_failover_body.
    unfold bind at 1, get_self at 1.
    destruct (current_active_server s) as [a|]; [|apply Hnil].
    destruct (negb (truthy (Some a))); [apply Hnil|].
    unfold bind at 1.
    destruct (_check_server_health cfg env a s w) as [[r1 s1] w1] eqn:Hcheck.
    destruct (check_health_clock a s w r1 s1 w1 Hcheck) as (Hc1 & e1 & Ht1 & Hf1).
    assert (H1 : (clock w1 <= clock w + length (servers cfg) + 3)%nat /\
                 exists evs, trace w1 = trace w ++ evs /\
                             (length (List.filter is_put evs) <= 1)%nat).
    { split; [lia|]. exists e1. split; [exact Ht1|]. rewrite Hf1. simpl. lia. }
    destruct r1 as [[|]|x]; try exact H1.
    unfold bind at 1, get_count at 1.
    destruct (failure_counts s1 !! a) as [c|]; [|exact H1].
    destruct (failure_threshold cfg <=? c); [|exact H1].
    unfold bind at 1, _get_next_available_server.
    destruct (scan_candidates cfg env (sorted_by_priority (servers cfg)) s1 w1)
      as [[r2 s2] w2] eqn:Hscan.
    destruct (scan_candidates_clock _ _ _ _ _ _ Hscan) as (Hc2 & e2 & Ht2 & Hf2).
    rewrite (Permutation_length (sorted_by_priority_perm (servers cfg))) in Hc2.
    assert (H2 : (clock w2 <= clock w + length (servers cfg) + 3)%nat /\
                 exists evs, trace w2 = trace w ++ evs /\
                             (length (List.filter is_put evs) <= 1)%nat).
    { split; [lia|]. exists (e1 ++ e2). rewrite Ht2, Ht1, app_assoc.
      split; [reflexivity|]. rewrite List.filter_app, Hf1, Hf2. simpl. lia. }
    destruct r2 as [[n|]|x]; try exact H2.
    destruct (truthy (Some n)); [|exact H2].
    unfold bind at 1.
    pose proof (switch_clock n s2 w2) as Hsw. cbv zeta in Hsw.
    destruct (_switch_to_server cfg env n s2 w2) as [[r3 s3] w3]. simpl in Hsw.
    destruct Hsw as (Hc3 & e3 & Ht3 & Hf3).
    assert (H3 : (clock w3 <= clock w + length (servers cfg) + 3)%nat /\
                 exists evs, trace w3 = trace w ++ evs /\
                             (length (List.filter is_put evs) <= 1)%nat).
    { split; [lia|]. exists (e1 ++ e2 ++ e3). rewrite Ht3, Ht2, Ht1, <- !app_assoc.
      split; [reflexivity|].
      rewrite !List.filter_app, Hf1, Hf2. simpl. exact Hf3. }
    destruct r3; exact H3. }
  destruct (check_and_failover cfg env s w) as [s' w'].
  destruct Hgoal as (Hc & evs & Ht & Hf).
  split; [exact Hc|].
  unfold puts_issued. rewrite (new_events_app w w' evs Ht). exact Hf.
Qed.

End Edges.

Lemma unknown_server_is_missing_key_witness :
  _check_server_health Example.cfg Example.env_all_up "Z" Example.s0 Example.w0
    = (Raise (KeyError "Z"), Example.s0, Example.w0) /\
  _switch_to_server Example.cfg Example.env_all_up "Z" Example.s0 Example.w0
    = (Ok false, Example.s0, Example.w0) /\
  (current_active_server Example.s0 = Some "Z" ->
   check_and_failover Example.cfg Example.env_all_up Example.s0 Example.w0
     = (Example.s0, Example.w0)).
Proof.
  apply (unknown_server_is_missing_key Example.cfg Example.env_all_up "Z"
           Example.s0 Example.w0).
  reflexivity.
Defined.

Lemma empty_configuration_is_refused_witness :
  (exists s, DNSFailover Example.cfg_empty Example.env_all_up Example.w0 =
               (Raise ValueError, s,
                snd (get_dns_record Example.env_all_up "example.com" "A" Example.w0))) /\
  fst (initialize_failover Example.cfg_empty Example.env_all_up Example.w0) = None /\
  (forall test,
     test_or_status_mode Example.cfg_empty Example.env_all_up test Example.w0 = None).
Proof.
  apply (empty_configuration_is_refused Example.cfg_empty Example.env_all_up Example.w0).
  reflexivity.
Defined.
